(** * Browzer topic agent: the evidence-to-prompt pipeline

    A shallow embedding of [topic_agent.py] (class [TopicAgent] and the two
    module-level token helpers) and the properties its specification states
    about it.

    Conventions of the embedding.
    - A Python [str] is a [string]; one [ascii] stands for one character of
      the Python string.  Where the source relies on Unicode tables
      ([str.isspace], [str.lower], the regex classes [\w] and [\s]) the table
      is a field of [Env], so nothing proved here depends on a particular
      table.
    - Python [int]s are [Z]; lengths are [nat] and are injected in [Z] where
      the source does arithmetic with them.
    - A call that can raise returns an [outcome]; [try ... except] is
      [catch].
    - Everything outside the file (NLTK, BeautifulSoup, urllib, the HTTP
      client, the LLM providers, the clock, the binary64 arithmetic of the
      truncation ratio) is a field of the record [Env].
    - Times are integers in a unit of the clock.  Logging and the pause
      between two requests of [process_urls] leave no trace in a result and
      are left out. *)

From Stdlib Require Import ZArith List String Ascii Bool Lia Arith DecimalString.
From Stdlib Require Import Sorting.Sorted Sorting.Permutation.
From Stdlib Require Floats Uint63.
Import ListNotations.

#[local] Open Scope string_scope.
#[local] Open Scope Z_scope.

(** ** Exceptions *)

Inductive exn : Type :=
| ZeroDivisionError
| ValueError
| LookupError
| ProviderError.

Inductive outcome (A : Type) : Type :=
| Ret (a : A)
| Raise (e : exn).

Arguments Ret {A} a.
Arguments Raise {A} e.

Definition bind {A B : Type} (m : outcome A) (k : A -> outcome B) : outcome B :=
match m with
| Ret a => k a
| Raise e => Raise e
end.

Definition catch {A : Type} (m : outcome A) (handler : exn -> A) : A :=
match m with
| Ret a => a
| Raise e => handler e
end.

Notation "x <- m ;; k" := (bind m (fun x => k))
  (at level 61, m at next level, right associativity).

(** ** Python string primitives *)

Definition nl : string := String (ascii_of_nat 10) "".
Definition space : ascii := ascii_of_nat 32.

Definition len (s : string) : Z := Z.of_nat (String.length s).

Definition is_empty (s : string) : bool :=
match s with
| EmptyString => true
| String _ _ => false
end.

(** [s[:n]] for a natural [n]. *)
Fixpoint take (n : nat) (s : string) : string :=
match n, s with
| O, _ => ""
| S _, EmptyString => ""
| S n', String c s' => String c (take n' s')
end.

(** [s.startswith(p)]. *)
Definition startswith (p s : string) : bool := String.prefix p s.

(** [p in s] for strings. *)
Fixpoint contains (p s : string) : bool :=
match s with
| EmptyString => is_empty p
| String _ s' => String.prefix p s || contains p s'
end.

Fixpoint rev_string (acc s : string) : string :=
match s with
| EmptyString => acc
| String c s' => rev_string (String c acc) s'
end.

(** [s.endswith(p)]. *)
Definition endswith (p s : string) : bool :=
String.prefix (rev_string "" p) (rev_string "" s).

Fixpoint drop (n : nat) (s : string) : string :=
match n, s with
| O, _ => s
| S _, EmptyString => ""
| S n', String _ s' => drop n' s'
end.

(** [s.replace(old, "")] for a non-empty [old]: leftmost non-overlapping
    occurrences are removed.  [fuel] bounds the number of characters looked
    at; [String.length s] is always enough. *)
Fixpoint remove_all_fuel (fuel : nat) (old s : string) : string :=
match fuel with
| O => s
| S fuel' =>
    match s with
    | EmptyString => ""
    | String c s' =>
        if String.prefix old s
        then remove_all_fuel fuel' old (drop (String.length old) s)
        else String c (remove_all_fuel fuel' old s')
    end
end.

Definition remove_all (old s : string) : string :=
remove_all_fuel (String.length s) old s.

(** [sep.join(parts)]. *)
Definition join (sep : string) (parts : list string) : string :=
String.concat sep parts.

(** [str(n)] for a natural number. *)
Definition str_of_nat (n : nat) : string :=
NilEmpty.string_of_uint (Nat.to_uint n).

(** ** Token estimation and truncation (module level) *)

(** [estimate_tokens]: four characters per token. *)
Definition estimate_tokens (text : string) : Z :=
if is_empty text then 0 else len text / 4.

Definition truncation_marker : string := "... [truncated due to length]".

(** The value [int(len(text) * ((max_tokens * 0.9) / estimated_tokens))]
    computed in exact rational arithmetic; [int] rounds toward zero. *)
Definition exact_target_length (length max_tokens estimated_tokens : Z) : Z :=
Z.quot (length * (9 * max_tokens)) (10 * estimated_tokens).

(** The source computes that value in binary64: [0.9] is rounded once, and
    so are the product, the quotient and the second product, which leaves
    the result within one unit of the exact one for any text of fewer than
    [10^15] characters.  [rounding_ok] is what the development asks of the
    computed value. *)
Definition rounding_ok (target : Z -> Z -> Z -> Z) : Prop :=
forall length max_tokens estimated_tokens,
  0 <= length -> 0 < estimated_tokens ->
  Z.abs (target length max_tokens estimated_tokens
         - exact_target_length length max_tokens estimated_tokens) <= 1.

(** The same value in binary64, as the source computes it: each operation
    is rounded to the nearest number, and so is [0.9], the quotient of 9 by
    10.  Lengths and limits below [2^53] are converted without rounding. *)
Definition float_of_int (z : Z) : PrimFloat.float :=
if z <? 0 then PrimFloat.opp (PrimFloat.of_uint63 (Uint63.of_Z (- z)))
else PrimFloat.of_uint63 (Uint63.of_Z z).

(** [int(f)] for a finite [f]. *)
Definition int_of_float (f : PrimFloat.float) : Z :=
match FloatOps.Prim2SF f with
| SpecFloat.S754_finite s m e =>
    let v := if 0 <=? e then Z.pos m * 2 ^ e else Z.pos m / 2 ^ (- e) in
    if s then - v else v
| _ => 0
end.

Definition nine_tenths : PrimFloat.float :=
PrimFloat.div (float_of_int 9) (float_of_int 10).

Definition binary64_target_length (length max_tokens estimated_tokens : Z) : Z :=
let ratio :=
  PrimFloat.div (PrimFloat.mul (float_of_int max_tokens) nine_tenths)
                (float_of_int estimated_tokens) in
int_of_float (PrimFloat.mul (float_of_int length) ratio).

Section TokenHelpers.

(** [float_target length max_tokens estimated_tokens] is the source's
    [int(len(text) * ratio)] with [ratio = (max_tokens * 0.9) / estimated_tokens]. *)
Variable float_target : Z -> Z -> Z -> Z.

(** [truncate_content_by_tokens].  The division raises when the estimate is
    zero, which the guard above it lets through for a negative limit. *)
Definition truncate_content_by_tokens (text : string) (max_tokens : Z) : outcome string :=
if is_empty text then Ret text
else
  let estimated_tokens := estimate_tokens text in
  if estimated_tokens <=? max_tokens then Ret text
  else if estimated_tokens =? 0 then Raise ZeroDivisionError
  else
    let target_length := float_target (len text) max_tokens estimated_tokens in
    if target_length <? 100
    then Ret (take 100 text ++ truncation_marker)
    else Ret (take (Z.to_nat target_length) text ++ truncation_marker).

End TokenHelpers.

(** ** Data of a request *)

(** One entry of [summaries]: the dictionaries built by [process_urls] and
    [process_query].  A key the dictionary lacks reads as [false] through
    [source.get(key, False)]. *)
Record source_item : Type := {
  title : string;
  url : string;
  summary : string;
  is_full_content : bool;
  has_html : bool
}.

(** [item['source']] of a conversation entry. *)
Record source_info : Type := {
  domain : string;
  topic : string;
  timestamp : Z
}.

(** One entry of [conversation_history]. *)
Record history_item : Type := {
  role : string;
  content : string;
  isMemory : bool;
  source : option source_info
}.

(** [ctx['content']] of an additional context, when it is a dictionary. *)
Record context_body : Type := {
  cb_content : string;
  cb_html : string
}.

(** One entry of [model_info['additionalContexts']];
    [ctx_content = None] when the entry has no dictionary under ['content']. *)
Record context : Type := {
  ctx_title : option string;
  ctx_url : string;
  ctx_content : option context_body
}.

(** [page_content]; [None] in a field is an absent key. *)
Record page : Type := {
  pc_htmlContent : option string;
  pc_content : string;
  pc_title : option string;
  pc_url : option string
}.

(** [model_info] as [main] builds it. *)
Record model : Type := {
  mi_provider : string;
  mi_api_key : string;
  mi_isQuestion : option bool;
  mi_originalQuery : string;
  mi_isAboutLinks : option bool;
  mi_additionalContexts : option (list context)
}.

(** The ['data'] dictionary of a response. *)
Record result_data : Type := {
  r_query : string;
  r_summaries : list source_item;
  r_consolidated_summary : option string;
  r_generation_time : Z;
  r_isQuestion : bool
}.

(** What [process_query] returns: [{'success': True, 'data': d}] or
    [{'success': False, 'error': str(e)}]. *)
Inductive response : Type :=
| Success (data : result_data)
| Failure (error : exn).

Definition success (r : response) : bool :=
match r with
| Success _ => true
| Failure _ => false
end.

(** The places of [process_query] from which [generate_llm_response] is
    reached; each is passed at most once per request, so a provider that
    answers differently from one call to the next is an [Env] that answers
    differently from one site to the next. *)
Inductive call_site : Type :=
| HtmlAnalysis
| DirectAnswer
| NoSourceAnswer
| FinalAnswer
| FinalSummary.

(** ** External collaborators *)

Record Env : Type := {
  (* Unicode tables *)
  is_space : ascii -> bool;
  is_word : ascii -> bool;
  lower : string -> string;
  isalnum : string -> bool;
  (* binary64 arithmetic of the truncation ratio *)
  float_target : Z -> Z -> Z -> Z;
  (* NLTK *)
  sent_tokenize : string -> outcome (list string);
  word_tokenize : string -> outcome (list string);
  stop_words : list string;
  (* urllib.parse: [parse_qs(urlparse(query).query)] read at ['q'] *)
  url_q_param : string -> outcome (option string);
  quote : string -> string;
  (* regular expressions of [_is_comparison_query] *)
  re_search_or : string -> bool;
  re_search_entities : string -> bool;
  (* requests.get, with [None] for any failure *)
  http_get : string -> option string;
  (* BeautifulSoup *)
  soup_get_text : string -> string;
  soup_title : string -> option string;
  soup_search_links : string -> list string;
  (* datetime.fromtimestamp(...).strftime('%Y-%m-%d') *)
  format_date : Z -> outcome string;
  (* the provider behind [generate_llm_response] and the clock around it *)
  provider_call : call_site -> string -> string -> string -> string -> outcome string;
  elapsed : call_site -> Z
}.

Section Agent.

Variable E : Env.

(** *** Whitespace-aware string methods *)

Fixpoint lstrip (s : string) : string :=
match s with
| EmptyString => ""
| String c s' => if is_space E c then lstrip s' else s
end.

Definition rstrip (s : string) : string :=
rev_string "" (lstrip (rev_string "" s)).

(** [s.strip()]. *)
Definition strip (s : string) : string := rstrip (lstrip s).

(** [s.split()]: the maximal runs of non-whitespace characters. *)
Fixpoint split_from (cur s : string) : list string :=
match s with
| EmptyString => if is_empty cur then [] else [cur]
| String c s' =>
    if is_space E c
    then (if is_empty cur then split_from "" s' else cur :: split_from "" s')
    else split_from (cur ++ String c "") s'
end.

Definition split (s : string) : list string := split_from "" s.

(** [re.sub(r'[^\w\s]', ' ', s)]. *)
Fixpoint sub_special (s : string) : string :=
match s with
| EmptyString => ""
| String c s' =>
    String (if is_word E c || is_space E c then c else space) (sub_special s')
end.

(** [re.sub(p + '+', ' ', s)] for a character class [p]: every maximal run
    of characters of the class becomes one space. *)
Fixpoint sub_runs (p : ascii -> bool) (in_run : bool) (s : string) : string :=
match s with
| EmptyString => ""
| String c s' =>
    if p c
    then (if in_run then sub_runs p true s' else String space (sub_runs p true s'))
    else String c (sub_runs p false s')
end.

Definition mem_string (w : string) (l : list string) : bool :=
existsb (String.eqb w) l.

(** *** [extract_text] *)
Definition extract_text (html_content : string) : string :=
if is_empty html_content then ""
else
  let text := soup_get_text E html_content in
  let text := strip (sub_runs (is_space E) false text) in
  sub_runs (Ascii.eqb (ascii_of_nat 10)) false text.

(** *** [summarize_text] *)

(** [FreqDist(word_tokens)[word]]. *)
Definition freq (word_tokens : list string) (word : string) : nat :=
List.length (filter (String.eqb word) word_tokens).

(** The loop that fills [sentence_scores]: sentence [i] gets an entry as
    soon as one of its words is in the distribution, and the entry sums the
    frequencies of those words.  Entries appear in the order of insertion,
    which is the order of the sentences. *)
Fixpoint score_sentences (word_tokens : list string) (i : nat) (sentences : list string)
  : outcome (list (nat * nat)) :=
match sentences with
| [] => Ret []
| sentence :: rest =>
    words <- word_tokenize E (lower E sentence) ;;
    let hits := filter (fun word => mem_string word word_tokens) words in
    scores <- score_sentences word_tokens (S i) rest ;;
    Ret (match hits with
         | [] => scores
         | _ :: _ => (i, list_sum (map (freq word_tokens) hits)) :: scores
         end)
end.

(** Insertion in a list sorted by decreasing score, before the entries of
    equal score: with [fold_right] the entry inserted is the earliest seen. *)
Fixpoint insert_by_score (x : nat * nat) (l : list (nat * nat)) : list (nat * nat) :=
match l with
| [] => [x]
| y :: l' =>
    if (snd y <=? snd x)%nat then x :: l else y :: insert_by_score x l'
end.

(** [heapq.nlargest(n, items, key=lambda x: x[1])]: the first [n] of the
    items sorted by decreasing key, ties in the order of the input. *)
Definition nlargest (n : nat) (items : list (nat * nat)) : list (nat * nat) :=
firstn n (fold_right insert_by_score [] items).

(** Insertion in a list sorted by increasing index, before the entries of
    equal index. *)
Fixpoint insert_by_index (x : nat * nat) (l : list (nat * nat)) : list (nat * nat) :=
match l with
| [] => [x]
| y :: l' =>
    if (fst x <=? fst y)%nat then x :: l else y :: insert_by_index x l'
end.

(** [sorted(top_sentences, key=lambda x: x[0])]. *)
Definition sorted_by_index (items : list (nat * nat)) : list (nat * nat) :=
fold_right insert_by_index [] items.

(** [[word for word in word_tokens if word.isalnum() and word not in self.stop_words]]. *)
Definition content_words (tokens : list string) : list string :=
filter (fun word => isalnum E word && negb (mem_string word (stop_words E))) tokens.

Definition summarize_text (text : string) (num_sentences : nat) : string :=
if is_empty text || (String.length text <? 100)%nat then text
else
  catch
    (sentences <- sent_tokenize E text ;;
     if (List.length sentences <=? num_sentences)%nat then Ret text
     else
       tokens <- word_tokenize E (lower E text) ;;
       let word_tokens := content_words tokens in
       sentence_scores <- score_sentences word_tokens 0 sentences ;;
       match sentence_scores with
       | [] => Ret (join " " (firstn num_sentences sentences))
       | _ :: _ =>
           let top_sentences := nlargest num_sentences sentence_scores in
           let top_sentences := sorted_by_index top_sentences in
           Ret (join " " (map (fun x => nth (fst x) sentences "") top_sentences))
       end)
    (fun _ => if (500 <? String.length text)%nat then take 500 text ++ "..." else text).

(** *** [clean_query] *)
Definition clean_query (query : string) : string :=
catch
  (extracted <-
     (if contains "?" query && (contains "http://" query || contains "https://" query)
      then url_q_param E query
      else Ret None) ;;
   match extracted with
   | Some q => Ret q
   | None =>
       let cleaned := sub_special query in
       let cleaned := strip (sub_runs (is_space E) false cleaned) in
       Ret (if (150 <? String.length cleaned)%nat then take 150 cleaned else cleaned)
   end)
  (fun _ => query).

(** *** [is_question] *)
Definition question_words : list string :=
["who"; "what"; "when"; "where"; "why"; "how"; "did"; "do"; "does"; "is"; "are"; "was"; "were"].

Definition is_url (query : string) : bool :=
startswith "http://" query || startswith "https://" query.

Definition is_question (query : string) : bool :=
if is_url query then false
else if contains "DIRECT QUESTION:" query || endswith "?" (strip query) then true
else existsb (fun word => mem_string word question_words) (split (lower E query)).

(** *** [generate_llm_response] *)
Definition supported_providers : list string :=
["anthropic"; "openai"; "perplexity"; "chutes"].

(** The triple [(success, result, total_time)].  [mi_api_key] is the first
    non-empty value among the keys the source tries; an exception of the
    provider is caught and the time elapsed so far is returned with it. *)
Definition generate_llm_response (site : call_site) (system user : string) (model_info : model)
  : bool * option string * Z :=
let provider := lower E (mi_provider model_info) in
if is_empty (mi_api_key model_info) then (false, None, 0)
else if mem_string provider supported_providers
then
  match provider_call E site provider (mi_api_key model_info) system user with
  | Ret result => (true, Some result, elapsed E site)
  | Raise _ => (false, None, elapsed E site)
  end
else (false, None, 0).

(** *** [_is_comparison_query] *)
Definition comparison_words : list string :=
["compare"; "difference"; "different"; "similarities"; "similar"; "versus"; "vs"; "vs.";
 "better"; "worse"; "stronger"; "weaker"].

Definition comparison_phrases : list string :=
["what is the difference"; "how do they compare"; "which one is"; "pros and cons";
 "advantages and disadvantages"].

Definition _is_comparison_query (query : string) : bool :=
let query_lower := lower E query in
if existsb (fun word => mem_string word (split query_lower)) comparison_words then true
else if existsb (fun phrase => contains phrase query_lower) comparison_phrases then true
else if re_search_or E query_lower then true
else re_search_entities E query_lower.

(** *** [create_question_answer]: the budgets and the fixed texts *)
Definition MAX_TOTAL_TOKENS : Z := 180000.
Definition MAX_CONTENT_TOKENS : Z := 150000.
Definition MAX_MEMORY_TOKENS : Z := 20000.
Definition MAX_SOURCE_TOKENS : Z := 100000.

Definition qa_system_prompt : string :=
  "You are a helpful assistant that answers questions accurately and thoroughly. "
  ++ "Always provide a direct answer to questions. "
  ++ "IMPORTANT INSTRUCTIONS:" ++ nl
  ++ "1. If the answer IS in the provided sources or memory, use that information and cite sources." ++ nl
  ++ "2. If the answer is NOT in the sources or memory, use your general knowledge to provide the best possible answer." ++ nl
  ++ "3. NEVER refuse to answer - always provide your best response." ++ nl
  ++ "4. When using general knowledge not from sources, clearly indicate this." ++ nl
  ++ "5. Keep your answers concise and relevant to the question." ++ nl
  ++ "6. If there are multiple sources or memories with conflicting information, acknowledge this and explain the differences." ++ nl
  ++ "7. When comparing information from different sources, organize your answer in a structured way that highlights similarities and differences." ++ nl
  ++ "8. When memory items contain information from pages visited at different times, clearly identify temporal relationships like 'according to more recent information' or 'previously known information'.".

Definition qa_final_instruction : string :=
  "Now answer the question directly and specifically. "
  ++ "If the answer is in the sources or memory context, cite the source. "
  ++ "If the information is not in the sources but in memory, indicate which memory item contains the information. "
  ++ "If neither sources nor memory contain the answer, provide the answer from your general knowledge "
  ++ "and clearly state that it comes from your knowledge rather than the provided sources.".

Definition qa_comparison_guidance : string :=
  nl ++ nl ++ "Since this question involves comparing information, please structure your answer to clearly "
  ++ "highlight similarities and differences between sources. You may use a structured format like:" ++ nl
  ++ "* Point of comparison 1: [Source A says X, Source B says Y]" ++ nl
  ++ "* Point of comparison 2: [Source A says P, Source B says Q]" ++ nl
  ++ "Conclude with insights about why these differences might exist.".

Definition comparison_instruction : string :=
  "IMPORTANT: The question is asking to compare information across different sources or time periods. "
  ++ "Please clearly identify differences and similarities between sources "
  ++ "and explain any discrepancies you find." ++ nl ++ nl.

(** *** [create_question_answer]: the pass over the conversation history *)

(** The dictionaries [{'role': role, 'content': content}] the first pass
    appends to [memory_items] and [current_conversation]. *)
Record turn : Type := {
  t_role : string;
  t_content : string
}.

Definition to_turn (item : history_item) : turn :=
{| t_role := role item; t_content := content item |}.

(** Entries whose content is blank are skipped. *)
Definition kept_history (conversation_history : list history_item) : list history_item :=
filter (fun item => negb (is_empty (strip (content item)))) conversation_history.

Definition memory_sources (conversation_history : list history_item) : list source_info :=
flat_map (fun item =>
            if isMemory item
            then match source item with Some s => [s] | None => [] end
            else [])
         (kept_history conversation_history).

(** The set [memory_domains], listed without repetition.  The order in which
    Python iterates over the set is not specified. *)
Definition memory_domains (conversation_history : list history_item) : list string :=
nodup string_dec
  (filter (fun d => negb (is_empty d)) (map domain (memory_sources conversation_history))).

Definition memory_timestamps (conversation_history : list history_item) : list Z :=
filter (fun t => negb (t =? 0)) (map timestamp (memory_sources conversation_history)).

Definition memory_items (conversation_history : list history_item) : list turn :=
map to_turn (filter isMemory (kept_history conversation_history)).

Definition current_conversation (conversation_history : list history_item) : list turn :=
map to_turn (filter (fun item => negb (isMemory item)) (kept_history conversation_history)).

Definition list_max (l : list Z) : Z := fold_right Z.max (hd 0 l) l.
Definition list_min (l : list Z) : Z := fold_right Z.min (hd 0 l) l.

Definition has_multiple_sources (conversation_history : list history_item) : bool :=
(1 <? List.length (memory_domains conversation_history))%nat.

Definition has_temporal_differences (conversation_history : list history_item) : bool :=
let ts := memory_timestamps conversation_history in
(1 <? List.length ts)%nat && (24 * 60 * 60 * 1000 <? list_max ts - list_min ts).

Definition comparison_note (conversation_history : list history_item) : string :=
  "COMPARISON CONTEXT: This question appears to be comparing information across multiple sources "
  ++ "from domains: " ++ join ", " (memory_domains conversation_history) ++ ". "
  ++ (if has_temporal_differences conversation_history
      then "These sources were accessed at different times, so temporal context may be relevant. "
      else "")
  ++ "When answering, explicitly compare and contrast information from different sources." ++ nl ++ nl.

(** *** [create_question_answer]: the memory section *)

(** [item.get('source', {}).get('domain', '')] and [... .get('timestamp', 0)]
    on an entry of [memory_items]: the first pass did not copy ['source'], so
    both read their default. *)
Definition turn_domain (item : turn) : string := "".
Definition turn_timestamp (item : turn) : Z := 0.

Definition is_grouped (item : turn) : bool :=
negb (is_empty (turn_domain item)) && (t_role item =? "assistant")%string.

(** [domain_groups], a dictionary in insertion order. *)
Fixpoint group_insert (d : string) (item : turn) (groups : list (string * list turn))
  : list (string * list turn) :=
match groups with
| [] => [(d, [item])]
| (d', items) :: rest =>
    if (d =? d')%string then (d', (items ++ [item])%list) :: rest
    else (d', items) :: group_insert d item rest
end.

Definition domain_groups (items : list turn) : list (string * list turn) :=
fold_left (fun groups item => group_insert (turn_domain item) item groups)
          (filter is_grouped items) [].

Definition ungrouped_memories (items : list turn) : list turn :=
filter (fun item => negb (is_grouped item)) items.

Definition date_str (ts : Z) : string :=
if ts =? 0 then ""
else catch (d <- format_date E ts ;; Ret (" (from " ++ d ++ ")")) (fun _ => "").

Definition grouped_line (item : turn) : string :=
let d := date_str (turn_timestamp item) in
if (t_role item =? "user")%string
then "Question" ++ d ++ ": " ++ t_content item ++ nl ++ nl
else if (t_role item =? "assistant")%string
then "Answer" ++ d ++ ": " ++ t_content item ++ nl ++ nl
else "".

Definition grouped_block (groups : list (string * list turn)) : string :=
  "--- MEMORY GROUPED BY SOURCE ---" ++ nl
  ++ join "" (map (fun g => nl ++ "From " ++ fst g ++ ":" ++ nl
                           ++ join "" (map grouped_line (snd g))) groups)
  ++ "--- END OF GROUPED MEMORY ---" ++ nl ++ nl.

Definition memory_line (item : turn) : string :=
if (t_role item =? "user")%string
then "Previous Question: " ++ t_content item ++ nl ++ nl
else if (t_role item =? "assistant")%string
then "Previous Answer: " ++ t_content item ++ nl ++ nl
else "".

(** [memory_content] before it is measured. *)
Definition memory_content (is_comparison_question : bool)
  (conversation_history : list history_item) : string :=
let items := memory_items conversation_history in
let groups := domain_groups items in
  "MEMORY CONTEXT (Information from previous conversations):" ++ nl
  ++ (if (1 <? List.length groups)%nat && is_comparison_question
      then grouped_block groups else "")
  ++ join "" (map memory_line (ungrouped_memories items))
  ++ "---" ++ nl ++ nl
  ++ (if is_comparison_question && has_multiple_sources conversation_history
      then comparison_instruction else "").

(** [memory_section] and the tokens it adds to [current_token_count]. *)
Definition memory_section (is_comparison_question : bool)
  (conversation_history : list history_item) : outcome (string * Z) :=
let note :=
  if is_comparison_question && has_multiple_sources conversation_history
  then comparison_note conversation_history else "" in
match memory_items conversation_history with
| [] => Ret (note, 0)
| _ :: _ =>
    let content := memory_content is_comparison_question conversation_history in
    content <-
      (if MAX_MEMORY_TOKENS <? estimate_tokens content
       then truncate_content_by_tokens (float_target E) content MAX_MEMORY_TOKENS
       else Ret content) ;;
    Ret (note ++ content, estimate_tokens content)
end.

(** *** [create_question_answer]: the conversation section *)
Definition conversation_line (item : turn) : string :=
if (t_role item =? "user")%string
then "User: " ++ t_content item ++ nl ++ nl
else if (t_role item =? "assistant")%string
then "Assistant: " ++ t_content item ++ nl ++ nl
else "".

Definition conversation_section (memory_section : string)
  (conversation_history : list history_item) : outcome (string * Z) :=
match current_conversation conversation_history with
| [] => Ret ("", 0)
| items =>
    let conv_content :=
      "RECENT CONVERSATION:" ++ nl ++ join "" (map conversation_line items) ++ "---" ++ nl ++ nl in
    let remaining_memory_tokens := MAX_MEMORY_TOKENS - estimate_tokens memory_section in
    conv_content <-
      (if remaining_memory_tokens <? estimate_tokens conv_content
       then truncate_content_by_tokens (float_target E) conv_content remaining_memory_tokens
       else Ret conv_content) ;;
    Ret (conv_content, estimate_tokens conv_content)
end.

(** *** [create_question_answer]: the sources section *)
Definition sources_header : string := "CURRENT QUESTION AND SOURCES:" ++ nl.

Definition full_sources (summaries : list source_item) : list source_item :=
filter is_full_content summaries.

Definition has_full_content (summaries : list source_item) : bool :=
existsb is_full_content summaries.

(** [available_source_tokens], the same expression in both branches. *)
Definition available_source_tokens (current_token_count : Z) : Z :=
Z.min MAX_SOURCE_TOKENS
      (MAX_TOTAL_TOKENS - current_token_count - estimate_tokens sources_header - 5000).

(** [tokens_per_source]: the allowance is shared by the full-content
    sources when there is one, by all the sources otherwise. *)
Definition tokens_per_source (current_token_count : Z) (summaries : list source_item) : Z :=
if has_full_content summaries
then available_source_tokens current_token_count
     / Z.of_nat (List.length (full_sources summaries))
else available_source_tokens current_token_count / Z.of_nat (List.length summaries).

(** What is written after [Content: ] for a full-content source. *)
Definition full_visible_content (tokens_per_source : Z) (source : source_item) : outcome string :=
let full_content := summary source in
if tokens_per_source <? estimate_tokens full_content
then truncate_content_by_tokens (float_target E) full_content tokens_per_source
else Ret full_content.

(** What is written after [Content: ] for a summarized source;
    [estimate_tokens("." * 500)] is [125]. *)
Definition summary_visible_content (tokens_per_source : Z) (source : source_item) : outcome string :=
let summary_text := summary source in
if (tokens_per_source <? estimate_tokens summary_text)
   || (500 <? String.length summary_text)%nat
then truncate_content_by_tokens (float_target E) summary_text (Z.min tokens_per_source (500 / 4))
else Ret summary_text.


Definition visible_content (full : bool) (tokens_per_source : Z) (source : source_item)
  : outcome string :=
if full then full_visible_content tokens_per_source source
else summary_visible_content tokens_per_source source.

Definition full_source_block (tokens_per_source : Z) (source : source_item) : outcome string :=
full_content <- full_visible_content tokens_per_source source ;;
Ret ("Title: " ++ title source ++ nl
     ++ "URL: " ++ url source ++ nl
     ++ "Content: " ++ full_content ++ nl ++ nl
     ++ "IMPORTANT: This is content from the webpage. "
     ++ "The answer to the question is likely contained within this content. "
     ++ "Please read through the content carefully to find relevant information." ++ nl ++ nl
     ++ (if has_html source
         then "NOTE: This content includes HTML with actual links in the format 'text [LINK: url]'. "
              ++ "When referring to links, use the exact URLs provided. Do not create or guess URLs. "
              ++ "If asked about links or articles, only mention those that are explicitly present in the content."
              ++ nl ++ nl
         else "")).

Definition summary_source_block (tokens_per_source : Z) (idx : nat) (source : source_item)
  : outcome string :=
summary_text <- summary_visible_content tokens_per_source source ;;
Ret ("Source " ++ str_of_nat idx ++ ":" ++ nl
     ++ "Title: " ++ title source ++ nl
     ++ "URL: " ++ url source ++ nl
     ++ "Content: " ++ summary_text ++ nl ++ nl).

(** The two [for idx, source in enumerate(summaries, 1)] loops. *)
Fixpoint source_blocks (full : bool) (tokens_per_source : Z) (idx : nat)
  (summaries : list source_item) : outcome string :=
match summaries with
| [] => Ret ""
| source :: rest =>
    block <-
      (if full
       then (if is_full_content source then full_source_block tokens_per_source source else Ret "")
       else summary_source_block tokens_per_source idx source) ;;
    blocks <- source_blocks full tokens_per_source (S idx) rest ;;
    Ret (block ++ blocks)
end.

Definition sources_section (current_token_count : Z) (summaries : list source_item)
  : outcome string :=
match summaries with
| [] =>
    Ret (sources_header
         ++ "No recent sources are available. Please answer based on memory context and your general knowledge."
         ++ nl ++ nl)
| _ :: _ =>
    let tps := tokens_per_source current_token_count summaries in
    if has_full_content summaries
    then
      blocks <- source_blocks true tps 1 summaries ;;
      Ret (sources_header ++ "FULL WEBPAGE CONTENT (complete, not summarized):" ++ nl ++ nl ++ blocks)
    else
      blocks <- source_blocks false tps 1 summaries ;;
      Ret (sources_header ++ blocks)
end.

(** *** [create_question_answer]: assembly and the final check *)

(** [query.replace("DIRECT QUESTION:", "").strip()]. *)
Definition qa_clean_query (query : string) : string :=
strip (remove_all "DIRECT QUESTION:" query).

Definition qa_question_line (query : string) : string :=
"QUESTION: " ++ qa_clean_query query ++ nl ++ nl.

(** [current_token_count] when the sources section is built, with the memory
    and conversation sections built so far. *)
Definition qa_before_sources (query : string) (conversation_history : list history_item)
  : outcome (Z * string * string) :=
let is_comparison_question := _is_comparison_query (qa_clean_query query) in
let count := estimate_tokens qa_system_prompt + estimate_tokens (qa_question_line query) in
mem <- memory_section is_comparison_question conversation_history ;;
conv <- conversation_section (fst mem) conversation_history ;;
Ret (count + snd mem + snd conv, fst mem, fst conv).


(** [user_prompt] after [# Combine all sections]. *)
Definition qa_combined_prompt (query : string) (summaries : list source_item)
  (conversation_history : list history_item) : outcome string :=
before <- qa_before_sources query conversation_history ;;
let '(current_token_count, memory, conversation) := before in
sources <- sources_section current_token_count summaries ;;
let final_instruction :=
  if _is_comparison_query (qa_clean_query query)
  then qa_final_instruction ++ qa_comparison_guidance
  else qa_final_instruction in
Ret (qa_question_line query ++ (memory ++ conversation ++ sources ++ final_instruction)).

(** [# Final token check], shared with [create_summary]. *)
Definition final_token_check (system_prompt user_prompt : string) : outcome string :=
let system_tokens := estimate_tokens system_prompt in
let total_tokens := system_tokens + estimate_tokens user_prompt in
if MAX_TOTAL_TOKENS <? total_tokens
then truncate_content_by_tokens (float_target E) user_prompt
       (MAX_TOTAL_TOKENS - system_tokens - 1000)
else Ret user_prompt.

(** The user prompt handed to the provider. *)
Definition qa_user_prompt (query : string) (summaries : list source_item)
  (conversation_history : list history_item) : outcome string :=
user_prompt <- qa_combined_prompt query summaries conversation_history ;;
final_token_check qa_system_prompt user_prompt.

Definition create_question_answer (site : call_site) (query : string)
  (summaries : list source_item) (model_info : model)
  (conversation_history : list history_item) : outcome (bool * result_data) :=
user_prompt <- qa_user_prompt query summaries conversation_history ;;
let '(ok, answer, generation_time) :=
  generate_llm_response site qa_system_prompt user_prompt model_info in
if ok
then Ret (true, {| r_query := qa_clean_query query;
                   r_summaries := summaries;
                   r_consolidated_summary := answer;
                   r_generation_time := generation_time;
                   r_isQuestion := true |})
else Ret (false, {| r_query := qa_clean_query query;
                    r_summaries := summaries;
                    r_consolidated_summary := Some "Failed to generate an answer to your question.";
                    r_generation_time := generation_time;
                    r_isQuestion := true |}).

(** *** [create_summary] *)
Definition SUMMARY_MAX_SOURCE_TOKENS : Z := 150000.

Definition summary_system_prompt : string :=
  "You are a helpful assistant that creates concise, accurate summaries. "
  ++ "Summarize the provided sources into a coherent overview that captures the key points. "
  ++ "Focus on accuracy and clarity.".

Definition summary_final_instruction : string :=
  "Create a well-structured summary that captures the key information from all sources. "
  ++ "Focus on accuracy and readability. "
  ++ "Keep the consolidated summary concise (less than 150 words).".

Definition summary_block (tokens_per_source : Z) (idx : nat) (source : source_item)
  : outcome string :=
let summary_text := summary source in
summary_text <-
  (if tokens_per_source <? estimate_tokens summary_text
   then truncate_content_by_tokens (float_target E) summary_text tokens_per_source
   else if (500 <? String.length summary_text)%nat
   then Ret (take 497 summary_text ++ "...")
   else Ret summary_text) ;;
Ret ("Source " ++ str_of_nat idx ++ ":" ++ nl
     ++ "Title: " ++ title source ++ nl
     ++ "URL: " ++ url source ++ nl
     ++ "Content: " ++ summary_text ++ nl ++ nl).

Fixpoint summary_blocks (tokens_per_source : Z) (idx : nat) (summaries : list source_item)
  : outcome string :=
match summaries with
| [] => Ret ""
| source :: rest =>
    block <- summary_block tokens_per_source idx source ;;
    blocks <- summary_blocks tokens_per_source (S idx) rest ;;
    Ret (block ++ blocks)
end.

Definition summary_user_prompt (query : string) (summaries : list source_item) : outcome string :=
let head :=
  "Please create a summary for: " ++ query ++ nl ++ nl
  ++ "Here are the sources to summarize:" ++ nl ++ nl in
body <-
  match summaries with
  | [] => Ret ("No sources are available for summarization." ++ nl ++ nl)
  | _ :: _ =>
      summary_blocks (SUMMARY_MAX_SOURCE_TOKENS / Z.of_nat (List.length summaries)) 1 summaries
  end ;;
final_token_check summary_system_prompt (head ++ body ++ summary_final_instruction).

Definition create_summary (site : call_site) (query : string)
  (summaries : list source_item) (model_info : model) : outcome (bool * result_data) :=
user_prompt <- summary_user_prompt query summaries ;;
let '(ok, answer, generation_time) :=
  generate_llm_response site summary_system_prompt user_prompt model_info in
if ok
then Ret (true, {| r_query := query;
                   r_summaries := summaries;
                   r_consolidated_summary := answer;
                   r_generation_time := generation_time;
                   r_isQuestion := false |})
else Ret (false, {| r_query := query;
                    r_summaries := summaries;
                    r_consolidated_summary := Some "Failed to generate summary.";
                    r_generation_time := generation_time;
                    r_isQuestion := false |}).

(** *** [get_webpage_content], [process_urls], [get_google_search_results] *)

(** [requests.get] behind its [try]: the body of the page, or [None]. *)
Definition get_webpage_content (u : string) : option string := http_get E u.

(** One round of the loop of [process_urls] for a URL that is fetched: the
    entry it appends, if any. *)
Definition process_url (u : string) : option source_item :=
match get_webpage_content u with
| None => None
| Some page_content =>
    if is_empty page_content then None
    else
      let text := extract_text page_content in
      if is_empty text || (String.length text <? 200)%nat then None
      else
        let summary := summarize_text text 5 in
        if is_empty summary then None
        else
          let title :=
            match soup_title E page_content with
            | Some t => strip t
            | None => "Untitled Page"
            end in
          Some {| title := title; url := u; summary := summary;
                  is_full_content := false; has_html := false |}
end.

(** The loop of [process_urls], with the list of the URLs it has sent a
    request to.  The loop is left as soon as three summaries are held. *)
Fixpoint process_urls_loop (urls : list string) (summaries : list source_item)
  (fetched : list string) : list source_item * list string :=
match urls with
| [] => (summaries, fetched)
| u :: rest =>
    if (3 <=? List.length summaries)%nat then (summaries, fetched)
    else
      match process_url u with
      | Some item => process_urls_loop rest (summaries ++ [item])%list (fetched ++ [u])%list
      | None => process_urls_loop rest summaries (fetched ++ [u])%list
      end
end.

Definition process_urls_trace (urls : list string) : list source_item * list string :=
process_urls_loop urls [] [].

Definition process_urls (urls : list string) (query : string) : list source_item :=
fst (process_urls_trace urls).

(** [list(dict.fromkeys(results))]. *)
Fixpoint unique (seen l : list string) : list string :=
match l with
| [] => []
| x :: l' => if mem_string x seen then unique seen l' else x :: unique (x :: seen) l'
end.

Definition get_google_search_results (query : string) : list string :=
let search_url := "https://www.google.com/search?q=" ++ quote E query ++ "&num=10" in
match get_webpage_content search_url with
| None => []
| Some content =>
    if is_empty content then []
    else firstn 5 (unique [] (soup_search_links E content))
end.

(** *** [process_query] *)

(** The decision on [query_is_question]. *)
Definition query_is_question (query : string) (is_question_arg : option bool)
  (model_info : option model) : bool :=
if is_url query then false
else
  let q := match is_question_arg with Some b => b | None => is_question query end in
  let q :=
    match model_info with
    | Some m => match mi_isQuestion m with Some b => q || b | None => q end
    | None => q
    end in
  match model_info with
  | Some m =>
      let original_query := mi_originalQuery m in
      if negb (is_empty original_query) && negb (is_url query) && is_question original_query
      then true else q
  | None => q
  end.

Definition html_system_prompt : string :=
  "You are a helpful assistant with expertise in understanding webpage structure and content. "
  ++ "When analyzing HTML content, pay special attention to links, buttons, navigation elements, and UI components. "
  ++ "If asked about specific UI elements or links, identify them clearly in your answer. "
  ++ "Format links as '[Link text](URL)' in your response for clarity. "
  ++ "Always provide direct answers based on the actual page content, "
  ++ "and do not make assumptions about content that isn't visible.".

Definition html_final_instruction : string :=
  "Please analyze this HTML to answer the question. "
  ++ "If the question is about finding links, buttons, or navigation elements, "
  ++ "list all relevant elements with their text and URLs. "
  ++ "If asked about a specific link or UI element, provide details if found. "
  ++ "If the information isn't available in the HTML, clearly state that you cannot find it.".

Definition or_default (o : option string) (d : string) : string :=
match o with Some s => s | None => d end.

Definition html_user_prompt (clean : string) (page_content : page) : string :=
let html_content := or_default (pc_htmlContent page_content) "" in
let html_content :=
  if 50000 <? len html_content
  then take (Z.to_nat 50000) html_content ++ "... [HTML truncated]"
  else html_content in
  "WEBPAGE ANALYSIS QUESTION: " ++ clean ++ nl ++ nl
  ++ "Below is the HTML content of a webpage with specially marked links in the format 'text [LINK: url]'."
  ++ nl ++ nl
  ++ "Page title: " ++ or_default (pc_title page_content) "Untitled" ++ nl
  ++ "URL: " ++ or_default (pc_url page_content) "" ++ nl ++ nl
  ++ "HTML CONTENT:" ++ nl ++ html_content ++ nl ++ nl
  ++ html_final_instruction.

(** The entry an additional context contributes, if any. *)
Definition context_item (is_q : bool) (i : nat) (ctx : context) : option source_item :=
match ctx_content ctx with
| None => None
| Some body =>
    let has_html := negb (is_empty (cb_html body)) in
    let content_to_use := if has_html then cb_html body else cb_content body in
    if negb (is_empty content_to_use) && (50 <? String.length content_to_use)%nat
    then
      let ctx_title := or_default (ctx_title ctx) ("Context " ++ str_of_nat (i + 1)) in
      Some {| title := ctx_title; url := ctx_url ctx;
              summary := if is_q then content_to_use else summarize_text content_to_use 5;
              is_full_content := is_q;
              has_html := has_html |}
    else None
end.

Fixpoint context_items (is_q : bool) (i : nat) (contexts : list context) : list source_item :=
match contexts with
| [] => []
| ctx :: rest =>
    match context_item is_q i ctx with
    | Some item => item :: context_items is_q (S i) rest
    | None => context_items is_q (S i) rest
    end
end.

(** [summaries] after the loop over [additionalContexts]. *)
Definition context_summaries (is_q : bool) (model_info : option model) : list source_item :=
match model_info with
| Some m =>
    match mi_additionalContexts m with
    | Some contexts => context_items is_q 0 contexts
    | None => []
    end
| None => []
end.

(** [has_html] and [content] of a page, the same in both places that read
    them. *)
Definition page_has_html (page_content : page) : bool :=
negb (is_empty (or_default (pc_htmlContent page_content) "")).

Definition page_body (page_content : page) : string :=
if page_has_html page_content
then or_default (pc_htmlContent page_content) ""
else pc_content page_content.

Definition page_is_substantial (page_content : page) : bool :=
negb (is_empty (page_body page_content)) && (200 <? String.length (page_body page_content))%nat.

(** [page_summary] of the direct path: the whole body. *)
Definition page_full_item (query : string) (page_content : page) : source_item :=
{| title := or_default (pc_title page_content) "Untitled Page";
   url := or_default (pc_url page_content) query;
   summary := page_body page_content;
   is_full_content := true;
   has_html := page_has_html page_content |}.

(** The entry of the normal path: the body summarized. *)
Definition page_summary_item (query : string) (page_content : page) : source_item :=
{| title := or_default (pc_title page_content) "Untitled Page";
   url := or_default (pc_url page_content) query;
   summary := summarize_text (page_body page_content) 5;
   is_full_content := false;
   has_html := page_has_html page_content |}.

Definition is_nil {A : Type} (l : list A) : bool :=
match l with [] => true | _ :: _ => false end.

(** [summaries] when the direct path asks for an answer: the entries of the
    contexts, then the page if it is substantial. *)
Definition direct_summaries (query : string) (is_q : bool) (page_content : page)
  (model_info : option model) : list source_item :=
(context_summaries is_q model_info
 ++ (if page_is_substantial page_content then [page_full_item query page_content] else []))%list.

(** The normal path: what it adds to [summaries]. *)
Definition normal_summaries (query clean : string) (provided_urls : list string)
  (page_content : option page) (summaries : list source_item) : list source_item :=
match page_content, is_nil summaries with
| Some p, true =>
    if page_is_substantial p then [page_summary_item query p] else []
| _, _ =>
    if negb (is_nil provided_urls)
    then (summaries ++ process_urls provided_urls clean)%list
    else if is_nil summaries
    then
      match get_google_search_results clean with
      | [] => summaries
      | search_urls => (summaries ++ process_urls search_urls clean)%list
      end
    else summaries
end.

Definition default_data (clean : string) (is_q : bool) : result_data :=
{| r_query := clean; r_summaries := [];
   r_consolidated_summary := Some "No relevant information found.";
   r_generation_time := 0; r_isQuestion := is_q |}.

(** The end of [process_query], from [# Default response for no summaries]. *)
Definition finish_query (clean : string) (is_q : bool) (summaries : list source_item)
  (model_info : option model) (conversation_history : list history_item) : outcome response :=
match summaries, model_info with
| [], Some m =>
    if is_q
    then
      r <- create_question_answer NoSourceAnswer clean [] m conversation_history ;;
      if fst r then Ret (Success (snd r)) else Ret (Success (default_data clean is_q))
    else Ret (Success (default_data clean is_q))
| [], None => Ret (Success (default_data clean is_q))
| _ :: _, None =>
    Ret (Success {| r_query := clean; r_summaries := summaries;
                    r_consolidated_summary := None;
                    r_generation_time := 0; r_isQuestion := is_q |})
| _ :: _, Some m =>
    r <- (if is_q
          then create_question_answer FinalAnswer clean summaries m conversation_history
          else create_summary FinalSummary clean summaries m) ;;
    if fst r then Ret (Success (snd r))
    else Ret (Success {| r_query := clean; r_summaries := summaries;
                         r_consolidated_summary := Some "Failed to generate a response.";
                         r_generation_time := 0; r_isQuestion := is_q |})
end.

(** [process_query].  [None] stands for both [None] and an empty dictionary
    or list, which every test of the source treats alike. *)
Definition process_query (query : string) (provided_urls : list string)
  (page_content : option page) (model_info : option model)
  (is_question_arg : option bool) (conversation_history : list history_item) : response :=
catch
  (let clean := clean_query query in
   let is_q := query_is_question query is_question_arg model_info in
   let is_about_links :=
     match model_info with
     | Some m => match mi_isAboutLinks m with Some b => b | None => false end
     | None => false
     end in
   (* questions about links, answered from the HTML *)
   let html_answer :=
     match page_content, model_info with
     | Some p, Some m =>
         match pc_htmlContent p with
         | Some _ =>
             if is_q && is_about_links
             then
               let '(ok, answer, generation_time) :=
                 generate_llm_response HtmlAnalysis html_system_prompt
                   (html_user_prompt clean p) m in
               if ok
               then Some {| r_query := clean; r_summaries := [];
                            r_consolidated_summary := answer;
                            r_generation_time := generation_time;
                            r_isQuestion := true |}
               else None
             else None
         | None => None
         end
     | _, _ => None
     end in
   match html_answer with
   | Some data => Ret (Success data)
   | None =>
       let summaries := context_summaries is_q model_info in
       (* direct question with page content *)
       direct <-
         match page_content, model_info with
         | Some p, Some m =>
             if is_q
             then
               let summaries := direct_summaries query is_q p model_info in
               if is_nil summaries then Ret (inr summaries)
               else
                 r <- create_question_answer DirectAnswer clean summaries m conversation_history ;;
                 if fst r then Ret (inl (snd r)) else Ret (inr summaries)
             else Ret (inr summaries)
         | _, _ => Ret (inr summaries)
         end ;;
       match direct with
       | inl data => Ret (Success data)
       | inr summaries =>
           let summaries := normal_summaries query clean provided_urls page_content summaries in
           finish_query clean is_q summaries model_info conversation_history
       end
   end)
  (fun e => Failure e).

End Agent.

(** ** Vocabulary of the statements *)

(** Every character of [s] satisfies [P]. *)
Fixpoint all_chars (P : ascii -> Prop) (s : string) : Prop :=
match s with
| EmptyString => True
| String c s' => P c /\ all_chars P s'
end.

(** No two spaces in a row in [s]; with [after_space = true], no space at
    its start either. *)
Fixpoint single_spaced (after_space : bool) (s : string) : bool :=
match s with
| EmptyString => true
| String c s' =>
    if Ascii.eqb c space then negb after_space && single_spaced true s'
    else single_spaced false s'
end.

(** A character [clean_query] leaves in a query: a space it wrote, or a word
    character of the query. *)
Definition cleaned_char (E : Env) (c : ascii) : Prop :=
c = space \/ (is_word E c = true /\ is_space E c = false).

(** The query after the two substitutions and [strip], before the cap. *)
Definition normalized (E : Env) (query : string) : string :=
strip E (sub_runs (is_space E) false (sub_special E query)).

(** The sentences of the given positions, joined in that order. *)
Definition selection (sentences : list string) (idxs : list nat) : string :=
join " " (map (fun i => nth i sentences "") idxs).

Definition by_index (x y : nat * nat) : Prop := (fst x <= fst y)%nat.

(** Truncating the result of a truncation again, with the same limit. *)
Definition truncate_twice (target : Z -> Z -> Z -> Z) (text : string) (max_tokens : Z)
  : outcome string :=
r <- truncate_content_by_tokens target text max_tokens ;;
truncate_content_by_tokens target r max_tokens.

(** [model_info.get('additionalContexts', [])]. *)
Definition contexts_of (model_info : option model) : list context :=
match model_info with
| Some m => match mi_additionalContexts m with Some l => l | None => [] end
| None => []
end.


(** Every call of the provider raises. *)
Definition provider_down (E : Env) : Prop :=
forall site provider key system user,
  exists e, provider_call E site provider key system user = Raise e.

(** The three ways in which [process_query] returns a success: the answer of
    the HTML analysis, the answer of the direct path, or the end of the
    function, reached with the evidence of the contexts or, after a failed
    direct answer, with the evidence of the direct path. *)
Inductive answered_by (E : Env) (query : string) (urls : list string) (pc : option page)
  (mi : option model) (arg : option bool) (hist : list history_item) (d : result_data) : Prop :=
| by_html (p : page) (m : model) :
    pc = Some p -> mi = Some m ->
    query_is_question E query arg mi = true ->
    r_summaries d = [] -> r_isQuestion d = true ->
    answered_by E query urls pc mi arg hist d
| by_direct (p : page) (m : model) :
    pc = Some p -> mi = Some m ->
    query_is_question E query arg mi = true ->
    create_question_answer E DirectAnswer (clean_query E query)
      (direct_summaries E query true p mi) m hist = Ret (true, d) ->
    answered_by E query urls pc mi arg hist d
| by_finish (summaries : list source_item) :
    finish_query E (clean_query E query) (query_is_question E query arg mi)
      (normal_summaries E query (clean_query E query) urls pc summaries) mi hist
      = Ret (Success d) ->
    ((summaries = context_summaries E (query_is_question E query arg mi) mi /\
      (forall p m, pc = Some p -> mi = Some m ->
                   query_is_question E query arg mi = true ->
                   direct_summaries E query true p mi = [])) \/
     exists p m, pc = Some p /\ mi = Some m /\
                 query_is_question E query arg mi = true /\
                 summaries = direct_summaries E query true p mi /\
                 summaries <> []) ->
    answered_by E query urls pc mi arg hist d.

(** ** Concrete collaborators

    An [Env] on which the model runs: ASCII tables, exact or binary64
    arithmetic for the truncation ratio, tokenizers that cut at punctuation
    and blanks, a URL parser for plain ASCII addresses, a small web and a
    provider that either answers or raises. *)

Definition in_range (lo hi : nat) (c : ascii) : bool :=
((lo <=? nat_of_ascii c) && (nat_of_ascii c <=? hi))%nat.

(** [str.isspace] on ASCII. *)
Definition ascii_is_space (c : ascii) : bool :=
in_range 9 13 c || in_range 28 32 c.

Definition ascii_is_alnum (c : ascii) : bool :=
in_range 48 57 c || in_range 65 90 c || in_range 97 122 c.

(** The class [\w] on ASCII. *)
Definition ascii_is_word (c : ascii) : bool :=
ascii_is_alnum c || Ascii.eqb c "_"%char.

Definition ascii_lower_char (c : ascii) : ascii :=
if in_range 65 90 c then ascii_of_nat (nat_of_ascii c + 32) else c.

Fixpoint map_string (f : ascii -> ascii) (s : string) : string :=
match s with
| EmptyString => ""
| String c s' => String (f c) (map_string f s')
end.

Fixpoint forallb_string (p : ascii -> bool) (s : string) : bool :=
match s with
| EmptyString => true
| String c s' => p c && forallb_string p s'
end.

Definition ascii_lower (s : string) : string := map_string ascii_lower_char s.

Definition ascii_isalnum (s : string) : bool :=
negb (is_empty s) && forallb_string ascii_is_alnum s.

Definition is_terminator (c : ascii) : bool :=
Ascii.eqb c "."%char || Ascii.eqb c "!"%char || Ascii.eqb c "?"%char.

(** Sentences end at a terminator that a space follows. *)
Fixpoint sentences_from (cur s : string) : list string :=
match s with
| EmptyString => if is_empty cur then [] else [cur]
| String c s' =>
    match s' with
    | String d s'' =>
        if is_terminator c && Ascii.eqb d space
        then (cur ++ String c "") :: sentences_from "" s''
        else sentences_from (cur ++ String c "") s'
    | EmptyString => [cur ++ String c ""]
    end
end.

Definition is_punctuation (c : ascii) : bool :=
is_terminator c || Ascii.eqb c ","%char || Ascii.eqb c ";"%char || Ascii.eqb c ":"%char.

(** Words are cut at blanks; a punctuation mark is a token of its own. *)
Fixpoint tokens_from (cur s : string) : list string :=
match s with
| EmptyString => if is_empty cur then [] else [cur]
| String c s' =>
    if ascii_is_space c
    then (if is_empty cur then tokens_from "" s' else cur :: tokens_from "" s')
    else if is_punctuation c
    then (if is_empty cur then String c "" :: tokens_from "" s'
          else cur :: String c "" :: tokens_from "" s')
    else tokens_from (cur ++ String c "") s'
end.

(** Part of NLTK's English stop words. *)
Definition english_stop_words : list string :=
["i"; "me"; "my"; "we"; "our"; "you"; "your"; "he"; "him"; "his"; "she"; "her"; "it"; "its";
 "they"; "them"; "their"; "what"; "which"; "who"; "this"; "that"; "these"; "those"; "am"; "is";
 "are"; "was"; "were"; "be"; "been"; "being"; "have"; "has"; "had"; "do"; "does"; "did"; "a";
 "an"; "the"; "and"; "but"; "if"; "or"; "because"; "as"; "of"; "at"; "by"; "for"; "with";
 "about"; "to"; "from"; "in"; "out"; "on"; "off"; "so"; "than"; "too"; "very"; "not"; "no"].

(** The first occurrence of [c] in [s]: what is before it and what is after. *)
Fixpoint split_at (c : ascii) (s : string) : option (string * string) :=
match s with
| EmptyString => None
| String d s' =>
    if Ascii.eqb c d then Some ("", s')
    else match split_at c s' with
         | Some (before, after) => Some (String d before, after)
         | None => None
         end
end.

(** The pieces of [s] between the occurrences of [c]. *)
Fixpoint pieces (c : ascii) (cur s : string) : list string :=
match s with
| EmptyString => [cur]
| String d s' =>
    if Ascii.eqb c d then cur :: pieces c "" s' else pieces c (cur ++ String d "") s'
end.

Definition is_scheme_char (c : ascii) : bool :=
ascii_is_alnum c || Ascii.eqb c "+"%char || Ascii.eqb c "-"%char || Ascii.eqb c "."%char.

Definition is_alpha (c : ascii) : bool := in_range 65 90 c || in_range 97 122 c.

(** [urlsplit]: the text after a well-formed scheme. *)
Definition after_scheme (u : string) : string :=
match split_at ":" u with
| Some (String c before, after) =>
    if is_alpha c && forallb_string is_scheme_char before then after else u
| _ => u
end.

(** The network location ends at the first of [/], [?] and [#]. *)
Fixpoint netloc_of (s : string) : string :=
match s with
| EmptyString => ""
| String c s' =>
    if Ascii.eqb c "/"%char || Ascii.eqb c "?"%char || Ascii.eqb c "#"%char then ""
    else String c (netloc_of s')
end.

Definition plus_to_space (s : string) : string :=
map_string (fun c => if Ascii.eqb c "+"%char then space else c) s.

(** [parse_qs(qs)['q'][0]]: the first pair named [q] with a value. *)
Fixpoint first_q (fields : list string) : option string :=
match fields with
| [] => None
| name_value :: rest =>
    match split_at "=" name_value with
    | Some (name, value) =>
        if negb (is_empty value) && (plus_to_space name =? "q")%string
        then Some (plus_to_space value)
        else first_q rest
    | None => first_q rest
    end
end.

(** [urlparse] then [parse_qs], for an ASCII address without percent
    escapes.  As [urlsplit] does, it raises [ValueError] when the network
    location holds one bracket without the other. *)
Definition ascii_url_q_param (u : string) : outcome (option string) :=
let rest := after_scheme u in
let netloc := if String.prefix "//" rest then netloc_of (drop 2 rest) else "" in
if xorb (contains "[" netloc) (contains "]" netloc) then Raise ValueError
else
  let rest := if String.prefix "//" rest then drop (2 + String.length netloc) rest else rest in
  let rest := match split_at "#" rest with Some (before, _) => before | None => rest end in
  match split_at "?" rest with
  | Some (_, qs) => Ret (first_q (pieces "&" "" qs))
  | None => Ret None
  end.

Definition long_page : string :=
  "Cats purr loudly. Dogs bark loudly. Cats chase mice. Mice eat cheese. "
  ++ "Birds sing songs. Cats sleep often. Dogs chase cats. "
  ++ "Cats purr loudly. Dogs bark loudly. Cats chase mice. Mice eat cheese. "
  ++ "Birds sing songs. Cats sleep often. Dogs chase cats.".

(** A web in which the pages under [https://ok.example/] exist. *)
Definition small_web (u : string) : option string :=
if String.prefix "https://ok.example/" u then Some long_page else None.

(** [env_with target llm]: the collaborators above around an arithmetic
    [target] for the truncation and a provider [llm]. *)
Definition env_with (target : Z -> Z -> Z -> Z) (llm : call_site -> outcome string) : Env :=
{| is_space := ascii_is_space;
   is_word := ascii_is_word;
   lower := ascii_lower;
   isalnum := ascii_isalnum;
   float_target := target;
   sent_tokenize := fun text => Ret (sentences_from "" text);
   word_tokenize := fun text => Ret (tokens_from "" text);
   stop_words := english_stop_words;
   url_q_param := ascii_url_q_param;
   quote := fun s => s;
   re_search_or := contains " or ";
   re_search_entities := contains " between ";
   http_get := small_web;
   soup_get_text := fun html => html;
   soup_title := fun _ => Some "A page";
   soup_search_links := fun _ => [];
   format_date := fun _ => Ret "1970-01-01";
   provider_call := fun site _ _ _ _ => llm site;
   elapsed := fun _ => 7 |}.

(** The provider answers. *)
Definition demo_env : Env := env_with exact_target_length (fun _ => Ret "An answer.").


(** The provider raises after seven units of time. *)
Definition down_env : Env := env_with exact_target_length (fun _ => Raise ProviderError).

Definition demo_model : model :=
{| mi_provider := "openai"; mi_api_key := "sk-demo"; mi_isQuestion := None;
   mi_originalQuery := ""; mi_isAboutLinks := None; mi_additionalContexts := None |}.

(** [s] repeated [n] times. *)
Fixpoint repeat_string (n : nat) (s : string) : string :=
match n with
| O => ""
| S n' => s ++ repeat_string n' s
end.


(** *** Concrete requests *)

Definition sixty : string := repeat_string 6 "0123456789".
Definition thousand : string := repeat_string 100 "0123456789".

Definition cats_text : string :=
  "Cats purr loudly. Dogs bark loudly. Cats chase mice. Mice eat cheese. "
  ++ "Birds sing songs. Cats sleep often. Dogs chase cats.".

Definition cats_sentences : list string :=
["Cats purr loudly."; "Dogs bark loudly."; "Cats chase mice."; "Mice eat cheese.";
 "Birds sing songs."; "Cats sleep often."; "Dogs chase cats."].

Definition cats_tokens : list string :=
["cats"; "purr"; "loudly"; "."; "dogs"; "bark"; "loudly"; "."; "cats"; "chase"; "mice"; ".";
 "mice"; "eat"; "cheese"; "."; "birds"; "sing"; "songs"; "."; "cats"; "sleep"; "often"; ".";
 "dogs"; "chase"; "cats"; "."].

Definition cats_scores : list (nat * nat) :=
[(0, 7); (1, 5); (2, 8); (3, 4); (4, 3); (5, 6); (6, 8)]%nat.

(** Thirteen sentences, of which only the first has a word that counts. *)
Definition stop_word_text : string :=
  "Cats purr. It is. He was. They are. We were. You do. She did. I am. "
  ++ "It was. He is. She was. They were. We are.".

(** Seven sentences in twenty characters. *)
Definition short_text : string := "A. B. C. D. E. F. G.".

Definition bracket_query : string := "http://[?" ++ repeat_string 16 "abcdefghij".

Definition pets_page : page :=
{| pc_htmlContent := None; pc_content := long_page;
   pc_title := Some "Pets"; pc_url := Some "https://pets.example/" |}.

Definition notes_context : context :=
{| ctx_title := Some "Notes"; ctx_url := "https://notes.example/";
   ctx_content :=
     Some {| cb_content := "Hamsters run in wheels at night and sleep during the day.";
             cb_html := "" |} |}.

Definition model_with_notes : model :=
{| mi_provider := "openai"; mi_api_key := "sk-demo"; mi_isQuestion := None;
   mi_originalQuery := ""; mi_isAboutLinks := None;
   mi_additionalContexts := Some [notes_context] |}.

(** Model information that says, by its flag and by its original query,
    that the request is a question. *)
Definition insisting_model : model :=
{| mi_provider := "openai"; mi_api_key := "sk-demo"; mi_isQuestion := Some true;
   mi_originalQuery := "What is this?"; mi_isAboutLinks := None;
   mi_additionalContexts := None |}.

Definition notes_item (full : bool) : source_item :=
{| title := "Notes"; url := "https://notes.example/";
   summary := "Hamsters run in wheels at night and sleep during the day.";
   is_full_content := full; has_html := false |}.

(** The answer to [Which animals chase mice?] on [pets_page] with
    [notes_context]. *)
Definition pets_answer : result_data :=
{| r_query := "Which animals chase mice";
   r_summaries := [notes_item true; page_full_item "Which animals chase mice?" pets_page];
   r_consolidated_summary := Some "An answer.";
   r_generation_time := 7;
   r_isQuestion := true |}.

(** The response to [Summarize: Pets] on [pets_page] when the provider is
    down. *)
Definition failed_summary : result_data :=
{| r_query := "Summarize Pets";
   r_summaries := [page_summary_item down_env "Summarize: Pets" pets_page];
   r_consolidated_summary := Some "Failed to generate a response.";
   r_generation_time := 0;
   r_isQuestion := false |}.

Definition full_source (body : string) : source_item :=
{| title := "T"; url := "u"; summary := body; is_full_content := true; has_html := false |}.

(** Two thousand full pages of a thousand characters. *)
Definition many_sources : list source_item := repeat (full_source thousand) 2000.

(** Three full pages of two hundred thousand characters. *)
Definition large_page : source_item := full_source (repeat_string 200 thousand).
Definition large_sources : list source_item := [large_page; large_page; large_page].

(** ** [main]: the request of the extension framework

    The request is taken as it is after [json.loads]; what [main] prints is
    its [reply]. *)

(** [data['pageContent']]: the page and the contexts it carries. *)
Record page_data : Type := {
  pd_page : page;
  pd_additionalContexts : list context
}.

(** The request; [None] is an absent key, and a list is empty when its key
    is absent. *)
Record request : Type := {
  rq_action : option string;
  rq_browser_api_keys : list (string * string);
  rq_selected_provider : option string;
  rq_query : string;
  rq_pageContent : option page_data;
  rq_urls : list string;
  rq_isQuestion : option bool;
  rq_conversationHistory : list history_item;
  rq_isAboutLinks : bool;
  rq_question : string;
  rq_context : string;
  rq_content : string;
  rq_title : option string;
  rq_url : string
}.

(** What is printed: the response of [process_query], or an error of
    [main] itself, [{'success': False, 'error': message}]. *)
Inductive reply : Type :=
| Reply (r : response)
| Refusal (error : string).

Definition reply_success (r : reply) : bool :=
match r with
| Reply r => success r
| Refusal _ => false
end.

(** [browser_api_keys.get(selected_provider)], empty when there is none. *)
Fixpoint lookup_key (provider : string) (keys : list (string * string)) : string :=
match keys with
| [] => ""
| (name, key) :: rest => if (name =? provider)%string then key else lookup_key provider rest
end.

Definition selected_provider (rq : request) : string :=
or_default (rq_selected_provider rq) "openai".

(** [model_info] as [main] fills it for the action [process_page]. *)
Definition main_model (rq : request) (about_links : bool) (contexts : list context) : model :=
{| mi_provider := selected_provider rq;
   mi_api_key := lookup_key (selected_provider rq) (rq_browser_api_keys rq);
   mi_isQuestion := None;
   mi_originalQuery := "";
   mi_isAboutLinks := if about_links then Some true else None;
   mi_additionalContexts := if is_nil contexts then None else Some contexts |}.

Definition context_page (context_data : string) : page :=
{| pc_htmlContent := None; pc_content := context_data;
   pc_title := Some "Context"; pc_url := Some "context" |}.

Definition content_page (rq : request) : page :=
{| pc_htmlContent := None; pc_content := rq_content rq;
   pc_title := Some (or_default (rq_title rq) "Untitled"); pc_url := Some (rq_url rq) |}.

(** [main], from the request to what it prints. *)
Definition main_reply (E : Env) (rq : request) : reply :=
let provider := selected_provider rq in
if is_empty (lookup_key provider (rq_browser_api_keys rq))
then Refusal ("No API key configured for " ++ provider ++ " in browser settings")
else
  let action := or_default (rq_action rq) "process_page" in
  if (action =? "process_page")%string
  then
    let contexts :=
      match rq_pageContent rq with
      | Some pd => pd_additionalContexts pd
      | None => []
      end in
    Reply (process_query E (rq_query rq) (rq_urls rq)
             (option_map pd_page (rq_pageContent rq))
             (Some (main_model rq (rq_isAboutLinks rq) contexts))
             (rq_isQuestion rq) (rq_conversationHistory rq))
  else if (action =? "answer_question")%string
  then
    Reply (process_query E (rq_question rq) []
             (if is_empty (rq_context rq) then None else Some (context_page (rq_context rq)))
             (Some (main_model rq false [])) (Some true) (rq_conversationHistory rq))
  else if (action =? "summarize")%string
  then
    if is_empty (rq_content rq)
    then Refusal "No content provided for summarization"
    else
      Reply (process_query E ("Summarize: " ++ or_default (rq_title rq) "Untitled") []
               (Some (content_page rq)) (Some (main_model rq false [])) (Some false) [])
  else Refusal ("Unknown action: " ++ action).

(** ** Further vocabulary *)


(** [l1] is [l2] with some of its elements left out. *)
Inductive subsequence {A : Type} : list A -> list A -> Prop :=
| subsequence_nil : subsequence [] []
| subsequence_skip (x : A) (l1 l2 : list A) :
    subsequence l1 l2 -> subsequence l1 (x :: l2)
| subsequence_keep (x : A) (l1 l2 : list A) :
    subsequence l1 l2 -> subsequence (x :: l1) (x :: l2).

(** The order in which [heapq.nlargest] ranks two scored sentences: the
    higher score first, and among equal scores the earlier sentence. *)
Definition ranks_before (x y : nat * nat) : Prop :=
(snd y < snd x)%nat \/ (snd y = snd x /\ fst x < fst y)%nat.

(** A character [extract_text] leaves in a text: a space, or a character
    that is not whitespace. *)
Definition plain_char (E : Env) (c : ascii) : Prop :=
c = space \/ is_space E c = false.

(** A request that asks for a summary of a page of [long_page]. *)
Definition summarize_request : request :=
{| rq_action := Some "summarize";
   rq_browser_api_keys := [("openai", "sk-demo")];
   rq_selected_provider := None;
   rq_query := ""; rq_pageContent := None; rq_urls := []; rq_isQuestion := None;
   rq_conversationHistory := []; rq_isAboutLinks := false;
   rq_question := ""; rq_context := "";
   rq_content := long_page; rq_title := Some "Pets"; rq_url := "https://pets.example/" |}.


(** A document with runs of blanks and line breaks. *)
Definition untidy_page : string :=
  "  Cats   purr" ++ nl ++ nl ++ "  loudly.   Dogs bark.  " ++ nl.

(** A page of seventeen characters. *)
Definition short_page : page :=
{| pc_htmlContent := None; pc_content := "Cats purr loudly.";
   pc_title := Some "Pets"; pc_url := Some "https://pets.example/" |}.

(** Two memory items from one domain, a blank entry and a turn of the
    conversation. *)
Definition demo_history : list history_item :=
[ {| role := "user"; content := "What do cats eat?"; isMemory := true;
     source := Some {| domain := "pets.example"; topic := "cats"; timestamp := 1000 |} |};
  {| role := "assistant"; content := "Cats eat mice."; isMemory := true;
     source := Some {| domain := "pets.example"; topic := "cats"; timestamp := 2000 |} |};
  {| role := "user"; content := "   "; isMemory := false; source := None |};
  {| role := "user"; content := "And dogs?"; isMemory := false; source := None |} ].

(** The memory and conversation sections of [demo_history]. *)
Definition demo_memory : string :=
  "MEMORY CONTEXT (Information from previous conversations):" ++ nl
  ++ "Previous Question: What do cats eat?" ++ nl ++ nl
  ++ "Previous Answer: Cats eat mice." ++ nl ++ nl
  ++ "---" ++ nl ++ nl.

Definition demo_conversation : string :=
  "RECENT CONVERSATION:" ++ nl ++ "User: And dogs?" ++ nl ++ nl ++ "---" ++ nl ++ nl.


(** A page that carries HTML, and model information for a question about
    its links. *)
Definition html_page : page :=
{| pc_htmlContent := Some "<a href='https://pets.example/cats'>Cats [LINK: https://pets.example/cats]</a>";
   pc_content := long_page;
   pc_title := Some "Pets"; pc_url := Some "https://pets.example/" |}.

Definition links_model : model :=
{| mi_provider := "OpenAI"; mi_api_key := "sk-demo"; mi_isQuestion := None;
   mi_originalQuery := ""; mi_isAboutLinks := Some true;
   mi_additionalContexts := Some [notes_context] |}.

(** * Properties *)

(** ** Strings *)

Lemma length_append (s t : string) :
  String.length (s ++ t) = (String.length s + String.length t)%nat.
Proof. induction s as [|c s IH]; simpl; [reflexivity | now rewrite IH]. Qed.

Lemma length_take (n : nat) (s : string) :
  String.length (take n s) = Nat.min n (String.length s).
Proof.
  revert s; induction n as [|n IH]; intros [|c s]; simpl; try reflexivity.
  now rewrite IH.
Qed.

Lemma append_nil_r (s : string) : s ++ "" = s.
Proof. induction s as [|c s IH]; simpl; [reflexivity | now rewrite IH]. Qed.

Lemma append_assoc (a b c : string) : (a ++ b) ++ c = a ++ (b ++ c).
Proof. induction a as [|x a IH]; simpl; [reflexivity | now rewrite IH]. Qed.

Lemma take_prefix (n : nat) (s : string) : exists t, s = take n s ++ t.
Proof.
  revert s. induction n as [|n IH]; intros s.
  - exists s. now destruct s.
  - destruct s as [|c s]; [now exists ""|].
    destruct (IH s) as [t Ht]. exists t. simpl. now rewrite <- Ht.
Qed.

Lemma rev_string_app (acc s : string) : rev_string acc s = rev_string "" s ++ acc.
Proof.
  revert acc. induction s as [|c s IH]; intros acc; simpl; [reflexivity|].
  rewrite (IH (String c acc)), (IH (String c "")). now rewrite append_assoc.
Qed.

Lemma rev_string_append (a b : string) :
  rev_string "" (a ++ b) = rev_string "" b ++ rev_string "" a.
Proof.
  induction a as [|c a IH]; simpl.
  - now rewrite append_nil_r.
  - rewrite (rev_string_app (String c "")), IH, (rev_string_app (String c "") a).
    now rewrite append_assoc.
Qed.

Lemma rev_string_involutive (s : string) : rev_string "" (rev_string "" s) = s.
Proof.
  induction s as [|c s IH]; simpl; [reflexivity|].
  rewrite (rev_string_app (String c "") s), rev_string_append, IH. reflexivity.
Qed.

Lemma len_nonneg (s : string) : 0 <= len s.
Proof. unfold len; lia. Qed.

Lemma estimate_tokens_len (s : string) : estimate_tokens s = len s / 4.
Proof. destruct s; reflexivity. Qed.

Lemma estimate_tokens_nonneg (s : string) : 0 <= estimate_tokens s.
Proof. rewrite estimate_tokens_len. apply Z.div_pos; [apply len_nonneg | lia]. Qed.

(** ** Truncation *)

Lemma exact_rounding_ok : rounding_ok exact_target_length.
Proof. intros l k e _ _. rewrite Z.sub_diag. cbn. lia. Qed.

(** Above the limit, the computed length is about [3.6] characters per
    token of the limit. *)
Lemma float_target_bounds (target : Z -> Z -> Z -> Z) (l k est : Z) :
  rounding_ok target -> 0 <= k -> k < est -> est = l / 4 ->
  36 * k - 19 <= 10 * target l k est <= 36 * k + 36.
Proof.
  intros Hr Hk Hest He.
  assert (Hl : 0 <= l).
  { destruct (Z_lt_le_dec l 0) as [Hn|]; [|assumption].
    assert (l / 4 < 0) by (apply Z.div_lt_upper_bound; lia). lia. }
  specialize (Hr l k est Hl ltac:(lia)).
  unfold exact_target_length in Hr.
  rewrite Z.quot_div_nonneg in Hr by nia.
  set (q := l * (9 * k) / (10 * est)) in *.
  assert (Hl4 : 4 * est <= l <= 4 * est + 3).
  { subst est. pose proof (Z.div_mod l 4 ltac:(lia)).
    pose proof (Z.mod_pos_bound l 4 ltac:(lia)). lia. }
  assert (Hq1 : (10 * est) * q <= l * (9 * k)) by (apply Z.mul_div_le; lia).
  assert (Hq2 : l * (9 * k) < (10 * est) * (q + 1)).
  { pose proof (Z.div_mod (l * (9 * k)) (10 * est) ltac:(lia)) as Hdm.
    pose proof (Z.mod_pos_bound (l * (9 * k)) (10 * est) ltac:(lia)). fold q in Hdm. nia. }
  assert (10 * q <= 36 * k + 26) by nia.
  assert (36 * k - 9 <= 10 * q) by nia.
  lia.
Qed.

(** From a limit of 74 tokens on, the truncated text fits the limit, and it
    is either the text itself or a strictly shorter text that ends with the
    marker. *)
Lemma truncate_fits (target : Z -> Z -> Z -> Z) (text : string) (k : Z) :
  rounding_ok target -> 74 <= k ->
  exists r,
    truncate_content_by_tokens target text k = Ret r /\
    estimate_tokens r <= k /\
    ((estimate_tokens text <= k /\ r = text) \/
     (k < estimate_tokens text /\
      exists n, (n < String.length text)%nat /\
                r = take n text ++ truncation_marker /\
                (String.length r < String.length text)%nat)).
Proof.
  intros Hr Hk. unfold truncate_content_by_tokens.
  destruct (is_empty text) eqn:Hemp.
  { exists text. destruct text; [|discriminate]. cbn.
    repeat split; try lia. left. split; [lia|reflexivity]. }
  destruct (estimate_tokens text <=? k) eqn:Hle.
  { apply Z.leb_le in Hle. exists text. repeat split; try lia. now left. }
  apply Z.leb_gt in Hle.
  destruct (estimate_tokens text =? 0) eqn:Hz; [apply Z.eqb_eq in Hz; lia|].
  rewrite estimate_tokens_len in Hle.
  pose proof (float_target_bounds target (len text) k (estimate_tokens text) Hr ltac:(lia)
                ltac:(rewrite estimate_tokens_len; lia) (estimate_tokens_len text)) as Hb.
  rewrite estimate_tokens_len in Hb |- *.
  set (t := target (len text) k (len text / 4)) in *.
  assert (Hl4 : 4 * (len text / 4) <= len text).
  { pose proof (Z.div_mod (len text) 4 ltac:(lia)).
    pose proof (Z.mod_pos_bound (len text) 4 ltac:(lia)). lia. }
  destruct (t <? 100) eqn:Ht; [apply Z.ltb_lt in Ht; lia|]. apply Z.ltb_ge in Ht.
  assert (Hn : (Z.to_nat t < String.length text)%nat) by (unfold len in *; lia).
  exists (take (Z.to_nat t) text ++ truncation_marker).
  assert (Hlen : String.length (take (Z.to_nat t) text ++ truncation_marker)
                 = (Z.to_nat t + 29)%nat).
  { rewrite length_append, length_take. cbn [truncation_marker String.length]. lia. }
  split; [reflexivity|]. split.
  - rewrite estimate_tokens_len. unfold len. rewrite Hlen.
    enough (Z.of_nat (Z.to_nat t + 29) / 4 < k + 1) by lia.
    apply Z.div_lt_upper_bound; lia.
  - right. split; [lia|]. exists (Z.to_nat t). split; [assumption|]. split; [reflexivity|].
    rewrite Hlen. unfold len in *. lia.
Qed.

(** The division is the only step that raises, and it is reached with a
    zero estimate only under a negative limit. *)
Lemma truncate_total (target : Z -> Z -> Z -> Z) (text : string) (k : Z) :
  estimate_tokens text <= k \/ 0 < estimate_tokens text ->
  exists r, truncate_content_by_tokens target text k = Ret r.
Proof.
  intros H. unfold truncate_content_by_tokens.
  destruct (is_empty text); [eauto|].
  destruct (estimate_tokens text <=? k) eqn:Hle; [eauto|]. apply Z.leb_gt in Hle.
  destruct (estimate_tokens text =? 0) eqn:Hz; [apply Z.eqb_eq in Hz; lia|].
  destruct (_ <? 100); eauto.
Qed.

(** C7.  For every text and every limit [k >= 100], truncation returns a
    text whose estimate is at most [k]; the text is returned as it is when
    it fits, and otherwise it is cut to a strictly shorter text to which the
    truncation marker is appended.  This holds for every rounding of the
    ratio that stays within one character of the exact value. *)
Theorem truncate_within_limit (target : Z -> Z -> Z -> Z) (text : string) (k : Z) :
  rounding_ok target ->
  100 <= k ->
  exists r,
    truncate_content_by_tokens target text k = Ret r /\
    estimate_tokens r <= k /\
    ((estimate_tokens text <= k /\ r = text) \/
     (k < estimate_tokens text /\
      exists n, (n < String.length text)%nat /\
                r = take n text ++ truncation_marker /\
                (String.length r < String.length text)%nat)).
Proof.
  intros Hr Hk. apply truncate_fits; [exact Hr | lia].
Qed.

Lemma truncate_within_limit_witness :
  exists r,
    truncate_content_by_tokens exact_target_length thousand 100 = Ret r /\
    estimate_tokens r <= 100 /\
    ((estimate_tokens thousand <= 100 /\ r = thousand) \/
     (100 < estimate_tokens thousand /\
      exists n, (n < String.length thousand)%nat /\
                r = take n thousand ++ truncation_marker /\
                (String.length r < String.length thousand)%nat)).
Proof.
  apply (truncate_within_limit exact_target_length thousand 100).
  - exact exact_rounding_ok.
  - lia.
Defined.

(** C8, amended.  For every text and every limit [n >= 100], truncating
    twice with the limit [n] gives what truncating once gives. *)
Theorem truncate_idempotent_from_100 (target : Z -> Z -> Z -> Z) (text : string) (n : Z) :
  rounding_ok target ->
  100 <= n ->
  truncate_twice target text n = truncate_content_by_tokens target text n.
Proof.
  intros Hr Hn. unfold truncate_twice.
  destruct (truncate_fits target text n Hr ltac:(lia)) as (r & Hret & Hfit & _).
  rewrite Hret. cbn [bind].
  unfold truncate_content_by_tokens.
  destruct (is_empty r); [reflexivity|].
  apply Z.leb_le in Hfit. now rewrite Hfit.
Qed.

Lemma truncate_idempotent_from_100_witness :
  truncate_twice exact_target_length thousand 100
  = truncate_content_by_tokens exact_target_length thousand 100.
Proof.
  apply (truncate_idempotent_from_100 exact_target_length thousand 100).
  - exact exact_rounding_ok.
  - lia.
Defined.

(** The exact value and the binary64 value agree on the lengths and limits
    of the concrete texts of this development. *)
Example binary64_agrees :
  binary64_target_length 60 10 15 = exact_target_length 60 10 15 /\
  binary64_target_length 89 10 22 = exact_target_length 89 10 22 /\
  binary64_target_length 1000 100 250 = exact_target_length 1000 100 250 /\
  binary64_target_length 1000 50 250 = exact_target_length 1000 50 250 /\
  binary64_target_length 200000 33333 50000 = exact_target_length 200000 33333 50000.
Proof. repeat split; vm_compute; reflexivity. Qed.

(** C8 as stated fails under a small limit.  Sixty characters are fifteen
    tokens; cut to ten tokens they keep their hundred first characters, that
    is all of them, and gain the marker; the result is twenty-two tokens, so
    the second truncation appends the marker once more.  The arithmetic is
    that of the source. *)
Lemma truncate_twice_differs :
  truncate_content_by_tokens binary64_target_length sixty 10
    = Ret (sixty ++ truncation_marker) /\
  truncate_twice binary64_target_length sixty 10
    = Ret (sixty ++ truncation_marker ++ truncation_marker) /\
  truncate_twice binary64_target_length sixty 10
    <> truncate_content_by_tokens binary64_target_length sixty 10.
Proof.
  split; [vm_compute; reflexivity|]. split; [vm_compute; reflexivity|].
  vm_compute. discriminate.
Qed.

(** ** The extractive summarizer *)

(** C10.  A text of fewer than 100 characters is returned unchanged,
    whatever the number of sentences asked for and whatever the number of
    sentences it has. *)
Theorem summarize_text_short_unchanged (E : Env) (text : string) (num_sentences : nat) :
  (String.length text < 100)%nat ->
  summarize_text E text num_sentences = text.
Proof.
  intros Hshort. unfold summarize_text.
  apply Nat.ltb_lt in Hshort. rewrite Hshort.
  now rewrite orb_true_r.
Qed.

Lemma summarize_text_short_unchanged_witness :
  sent_tokenize demo_env short_text = Ret ["A."; "B."; "C."; "D."; "E."; "F."; "G."] /\
  summarize_text demo_env short_text 5 = short_text.
Proof.
  split; [reflexivity|].
  apply (summarize_text_short_unchanged demo_env short_text 5).
  vm_compute. lia.
Defined.

Lemma insert_by_score_perm (x : nat * nat) (l : list (nat * nat)) :
  Permutation (insert_by_score x l) (x :: l).
Proof.
  induction l as [|y l IH]; cbn; [reflexivity|].
  destruct (snd y <=? snd x)%nat; [reflexivity|].
  rewrite IH. apply perm_swap.
Qed.

Lemma sort_by_score_perm (l : list (nat * nat)) :
  Permutation (fold_right insert_by_score [] l) l.
Proof.
  induction l as [|x l IH]; cbn; [reflexivity|].
  rewrite insert_by_score_perm. now constructor.
Qed.

Lemma insert_by_index_perm (x : nat * nat) (l : list (nat * nat)) :
  Permutation (insert_by_index x l) (x :: l).
Proof.
  induction l as [|y l IH]; cbn; [reflexivity|].
  destruct (fst x <=? fst y)%nat; [reflexivity|].
  rewrite IH. apply perm_swap.
Qed.

Lemma sorted_by_index_perm (l : list (nat * nat)) : Permutation (sorted_by_index l) l.
Proof.
  unfold sorted_by_index. induction l as [|x l IH]; cbn; [reflexivity|].
  rewrite insert_by_index_perm. now constructor.
Qed.

Lemma insert_by_index_sorted (x : nat * nat) (l : list (nat * nat)) :
  StronglySorted by_index l -> StronglySorted by_index (insert_by_index x l).
Proof.
  induction 1 as [|y l Hl IH Hy]; cbn.
  - repeat constructor.
  - destruct (fst x <=? fst y)%nat eqn:Hxy.
    + apply Nat.leb_le in Hxy. constructor; [now constructor|].
      constructor; [exact Hxy|]. eapply Forall_impl; [|exact Hy].
      unfold by_index. intros; lia.
    + apply Nat.leb_gt in Hxy. constructor; [exact IH|].
      eapply Permutation_Forall; [symmetry; apply insert_by_index_perm|].
      constructor; [unfold by_index; lia | exact Hy].
Qed.

Lemma sorted_by_index_sorted (l : list (nat * nat)) :
  StronglySorted by_index (sorted_by_index l).
Proof.
  unfold sorted_by_index. induction l as [|x l IH]; cbn; [constructor|].
  now apply insert_by_index_sorted.
Qed.

Lemma sorted_nodup_increasing (l : list (nat * nat)) :
  StronglySorted by_index l -> NoDup (map fst l) -> StronglySorted lt (map fst l).
Proof.
  induction 1 as [|x l Hl IH Hx]; cbn; intros Hnd; [constructor|].
  inversion Hnd as [|? ? Hnotin Hnd']; subst.
  constructor; [now apply IH|].
  apply Forall_forall. intros k Hk.
  apply in_map_iff in Hk as (y & <- & Hy).
  rewrite Forall_forall in Hx. specialize (Hx y Hy). unfold by_index in Hx.
  assert (fst x <> fst y) by (intros Heq; apply Hnotin; rewrite Heq; now apply in_map).
  lia.
Qed.

Lemma increasing_nodup (l : list nat) : StronglySorted lt l -> NoDup l.
Proof.
  induction 1 as [|x l Hl IH Hx]; constructor; [|exact IH].
  intros Hin. rewrite Forall_forall in Hx. specialize (Hx x Hin). lia.
Qed.

Lemma firstn_seq_nth (A : Type) (d : A) (l : list A) (n : nat) :
  (n <= List.length l)%nat -> firstn n l = map (fun i => nth i l d) (seq 0 n).
Proof.
  revert n. induction l as [|x l IH]; intros n Hn.
  - cbn in Hn. assert (n = 0)%nat as -> by lia. reflexivity.
  - destruct n as [|n]; [reflexivity|]. cbn [firstn seq map nth]. f_equal.
    rewrite <- seq_shift, map_map. apply IH. cbn in Hn. lia.
Qed.

Lemma seq_increasing (n : nat) : forall i, StronglySorted lt (seq i n).
Proof.
  induction n as [|n IH]; intros i; cbn; constructor; [apply IH|].
  apply Forall_forall. intros k Hk. apply in_seq in Hk. lia.
Qed.

(** The scored sentences are listed by increasing position. *)
Lemma score_sentences_indices (E : Env) (word_tokens sentences : list string) :
  forall i scores,
    score_sentences E word_tokens i sentences = Ret scores ->
    StronglySorted lt (map fst scores) /\
    Forall (fun k => i <= k < i + List.length sentences)%nat (map fst scores).
Proof.
  induction sentences as [|s rest IH]; intros i scores; cbn [score_sentences].
  - intros [= <-]. split; constructor.
  - destruct (word_tokenize E (lower E s)) as [words|]; [|discriminate]. cbn [bind].
    destruct (score_sentences E word_tokens (S i) rest) as [scores'|] eqn:Hrest; [|discriminate].
    cbn [bind]. destruct (IH _ _ Hrest) as [Hs Hb].
    assert (Hb' : Forall (fun k => i <= k < i + List.length (s :: rest))%nat (map fst scores')).
    { eapply Forall_impl; [|exact Hb]. cbn. intros; lia. }
    destruct (filter _ words); intros [= <-]; [now split|].
    cbn. split.
    + constructor; [exact Hs|]. eapply Forall_impl; [|exact Hb]. cbn. intros; lia.
    + constructor; [cbn; lia | exact Hb'].
Qed.

(** C2, amended.  For a text of at least 100 characters that the tokenizers
    accept, with more than [n] sentences, of which either none or at least
    [n] receive a score, the summary is made of exactly [n] sentences of the
    text, joined by increasing position in the text. *)
Theorem summarize_text_selects (E : Env) (text : string) (n : nat)
  (sentences tokens : list string) (scores : list (nat * nat)) :
  (100 <= String.length text)%nat ->
  sent_tokenize E text = Ret sentences ->
  (n < List.length sentences)%nat ->
  word_tokenize E (lower E text) = Ret tokens ->
  score_sentences E (content_words E tokens) 0 sentences = Ret scores ->
  scores = [] \/ (n <= List.length scores)%nat ->
  exists idxs,
    List.length idxs = n /\
    StronglySorted lt idxs /\
    Forall (fun i => i < List.length sentences)%nat idxs /\
    summarize_text E text n = selection sentences idxs.
Proof.
  intros Hlen Hsent Hn Htok Hscores Henough.
  unfold summarize_text.
  assert (is_empty text = false) as -> by (destruct text; [cbn in Hlen; lia | reflexivity]).
  assert ((String.length text <? 100)%nat = false) as -> by (apply Nat.ltb_ge; lia).
  cbn [orb]. rewrite Hsent. cbn [bind].
  assert ((List.length sentences <=? n)%nat = false) as -> by (apply Nat.leb_gt; lia).
  rewrite Htok. cbn [bind]. rewrite Hscores. cbn [bind catch].
  destruct scores as [|sc scores].
  - exists (seq 0 n). rewrite length_seq. split; [reflexivity|].
    split; [apply seq_increasing|]. split.
    + apply Forall_forall. intros k Hk. apply in_seq in Hk. lia.
    + unfold selection. now rewrite (firstn_seq_nth _ "" sentences n) by lia.
  - destruct Henough as [|Henough]; [discriminate|].
    set (all := sc :: scores) in *.
    destruct (score_sentences_indices _ _ _ _ _ Hscores) as [Hinc Hrange].
    set (top := nlargest n all).
    assert (Hsub : exists others, Permutation (top ++ others) all).
    { exists (skipn n (fold_right insert_by_score [] all)). unfold top, nlargest.
      rewrite firstn_skipn. apply sort_by_score_perm. }
    destruct Hsub as [others Hperm].
    assert (Hperm' : Permutation (map fst (sorted_by_index top) ++ map fst others)
                                 (map fst all)).
    { rewrite <- map_app. apply Permutation_map.
      rewrite sorted_by_index_perm. exact Hperm. }
    exists (map fst (sorted_by_index top)). split; [|split; [|split]].
    + rewrite length_map, (Permutation_length (sorted_by_index_perm top)).
      unfold top, nlargest.
      rewrite length_firstn, (Permutation_length (sort_by_score_perm all)). lia.
    + apply sorted_nodup_increasing; [apply sorted_by_index_sorted|].
      apply increasing_nodup in Hinc.
      apply (Permutation_NoDup (Permutation_sym Hperm')) in Hinc.
      now apply NoDup_app_remove_r in Hinc.
    + apply (Permutation_Forall (Permutation_sym Hperm')) in Hrange.
      apply Forall_app in Hrange as [Hrange _].
      eapply Forall_impl; [|exact Hrange]. cbn. intros; lia.
    + unfold selection. now rewrite map_map.
Qed.

Lemma summarize_text_selects_witness :
  exists idxs,
    List.length idxs = 5%nat /\
    StronglySorted lt idxs /\
    Forall (fun i => i < List.length cats_sentences)%nat idxs /\
    summarize_text demo_env cats_text 5 = selection cats_sentences idxs.
Proof.
  apply (summarize_text_selects demo_env cats_text 5 cats_sentences cats_tokens cats_scores).
  - vm_compute. lia.
  - reflexivity.
  - vm_compute. lia.
  - reflexivity.
  - reflexivity.
  - right. vm_compute. lia.
Defined.

(** On [cats_text] the five sentences kept are those of the positions 0, 1,
    2, 5 and 6, although the two best scores are at 2 and 6. *)
Example summarize_cats :
  summarize_text demo_env cats_text 5 = selection cats_sentences [0; 1; 2; 5; 6]%nat.
Proof. vm_compute. reflexivity. Qed.

(** C2 as stated fails in two ways.  A text of thirteen sentences of which a
    single one is scored is summarized by that sentence alone, not by five;
    and a text of seven sentences in fewer than 100 characters comes back
    whole. *)
Lemma summary_with_fewer_sentences :
  (exists sentences,
     sent_tokenize demo_env stop_word_text = Ret sentences /\
     List.length sentences = 13%nat) /\
  (100 <= String.length stop_word_text)%nat /\
  summarize_text demo_env stop_word_text 5 = "Cats purr." /\
  sent_tokenize demo_env (summarize_text demo_env stop_word_text 5) = Ret ["Cats purr."] /\
  (exists sentences,
     sent_tokenize demo_env short_text = Ret sentences /\
     List.length sentences = 7%nat /\
     sent_tokenize demo_env (summarize_text demo_env short_text 5) = Ret sentences).
Proof.
  split; [eexists; split; vm_compute; reflexivity|].
  split; [vm_compute; lia|].
  split; [vm_compute; reflexivity|].
  split; [vm_compute; reflexivity|].
  eexists; repeat split; vm_compute; reflexivity.
Qed.

(** ** Query cleaning *)

Lemma all_chars_app (P : ascii -> Prop) (a b : string) :
  all_chars P (a ++ b) <-> all_chars P a /\ all_chars P b.
Proof. induction a as [|c a IH]; simpl; tauto. Qed.

Lemma single_spaced_prefix (a t : string) :
  forall b, single_spaced b (a ++ t) = true -> single_spaced b a = true.
Proof.
  induction a as [|c a IH]; intros b; simpl; [reflexivity|].
  destruct (Ascii.eqb c space).
  - intros H. apply andb_true_iff in H as [-> H]. simpl. now apply IH.
  - apply IH.
Qed.

Section Cleaning.

Variable E : Env.
Hypothesis space_is_space : is_space E space = true.

Lemma lstrip_suffix (s : string) : exists y, s = y ++ lstrip E s.
Proof.
  induction s as [|c s [y Hy]]; [now exists ""|]. simpl.
  destruct (is_space E c); [|now exists ""].
  exists (String c y). simpl. now rewrite <- Hy.
Qed.

Lemma rstrip_prefix (s : string) : exists t, s = rstrip E s ++ t.
Proof.
  unfold rstrip. destruct (lstrip_suffix (rev_string "" s)) as [y Hy].
  exists (rev_string "" y).
  rewrite <- rev_string_append, <- Hy. now rewrite rev_string_involutive.
Qed.

Lemma not_space_class (c : ascii) : is_space E c = false -> Ascii.eqb c space = false.
Proof.
  intros H. destruct (Ascii.eqb c space) eqn:Heq; [|reflexivity].
  apply Ascii.eqb_eq in Heq. subst. congruence.
Qed.

Lemma lstrip_single_spaced (s : string) :
  forall b, single_spaced b s = true -> single_spaced true (lstrip E s) = true.
Proof.
  induction s as [|c s IH]; intros b; simpl; [reflexivity|].
  destruct (is_space E c) eqn:Hc.
  - destruct (Ascii.eqb c space).
    + intros H. apply andb_true_iff in H as [_ H]. now apply IH in H.
    + apply IH.
  - simpl. rewrite (not_space_class c Hc). auto.
Qed.

Lemma sub_runs_chars (s : string) :
  forall b, all_chars (cleaned_char E) (sub_runs (is_space E) b (sub_special E s)).
Proof.
  induction s as [|c s IH]; intros b; simpl; [exact I|].
  destruct (is_word E c || is_space E c) eqn:Hc.
  - destruct (is_space E c) eqn:Hs.
    + destruct b; simpl; [apply IH|]. split; [now left | apply IH].
    + simpl. split; [|apply IH]. right. rewrite orb_false_r in Hc. now split.
  - rewrite space_is_space. destruct b; simpl; [apply IH|]. split; [now left | apply IH].
Qed.

Lemma sub_runs_single_spaced (s : string) :
  forall b, single_spaced b (sub_runs (is_space E) b s) = true.
Proof.
  induction s as [|c s IH]; intros b; simpl; [reflexivity|].
  destruct (is_space E c) eqn:Hc.
  - destruct b; [apply IH|]. simpl. apply IH.
  - simpl. rewrite (not_space_class c Hc). apply IH.
Qed.

Lemma normalized_chars (query : string) : all_chars (cleaned_char E) (normalized E query).
Proof.
  unfold normalized, strip.
  set (s := sub_runs (is_space E) false (sub_special E query)).
  pose proof (sub_runs_chars query false) as H. fold s in H.
  destruct (lstrip_suffix s) as [y Hy]. rewrite Hy in H. apply all_chars_app in H as [_ H].
  destruct (rstrip_prefix (lstrip E s)) as [t Ht]. rewrite Ht in H.
  now apply all_chars_app in H.
Qed.

Lemma normalized_single_spaced (query : string) :
  single_spaced true (normalized E query) = true.
Proof.
  unfold normalized, strip.
  set (s := sub_runs (is_space E) false (sub_special E query)).
  pose proof (lstrip_single_spaced s false (sub_runs_single_spaced _ false)) as H.
  destruct (rstrip_prefix (lstrip E s)) as [t Ht]. rewrite Ht in H.
  now apply single_spaced_prefix in H.
Qed.

(** C9, amended.  When the query is not an address with a [q] parameter and
    its parsing, if it is parsed, does not raise, [clean_query] returns at
    most 150 characters, each a word character of the query or a single
    space, with no space at the start; it is the first 150 characters of the
    query with its special characters replaced by spaces, its whitespace
    collapsed and its ends stripped.  The value of a [q] parameter is
    returned as it is, whatever its length; and when the parsing raises, so
    is the query itself. *)
Theorem clean_query_spec (query : string) :
  match (if contains "?" query && (contains "http://" query || contains "https://" query)
         then url_q_param E query else Ret None) with
  | Ret None =>
      clean_query E query = take 150 (normalized E query) /\
      (String.length (clean_query E query) <= 150)%nat /\
      all_chars (cleaned_char E) (clean_query E query) /\
      single_spaced true (clean_query E query) = true
  | Ret (Some q) => clean_query E query = q
  | Raise _ => clean_query E query = query
  end.
Proof.
  unfold clean_query.
  destruct (if contains "?" query && (contains "http://" query || contains "https://" query)
            then url_q_param E query else Ret None) as [[q|]|e];
    cbn [bind catch]; try reflexivity.
  fold (normalized E query).
  destruct (take_prefix 150 (normalized E query)) as [t Ht].
  assert (Heq : (if (150 <? String.length (normalized E query))%nat
                 then take 150 (normalized E query) else normalized E query)
                = take 150 (normalized E query)).
  { destruct (150 <? String.length (normalized E query))%nat eqn:Hlen; [reflexivity|].
    apply Nat.ltb_ge in Hlen.
    assert (Hl : String.length (normalized E query)
                 = String.length (take 150 (normalized E query) ++ t)) by now rewrite <- Ht.
    rewrite length_append, length_take in Hl.
    assert (t = "") as -> by (destruct t; [reflexivity | cbn [String.length] in Hl; lia]).
    now rewrite append_nil_r in Ht. }
  rewrite Heq. split; [reflexivity|]. split; [rewrite length_take; lia|]. split.
  - pose proof (normalized_chars query) as H. rewrite Ht in H. now apply all_chars_app in H.
  - pose proof (normalized_single_spaced query) as H. rewrite Ht in H.
    now apply single_spaced_prefix in H.
Qed.

End Cleaning.

Lemma clean_query_spec_witness :
  clean_query demo_env "What's   new, Pussycat?"
    = take 150 (normalized demo_env "What's   new, Pussycat?") /\
  (String.length (clean_query demo_env "What's   new, Pussycat?") <= 150)%nat /\
  all_chars (cleaned_char demo_env) (clean_query demo_env "What's   new, Pussycat?") /\
  single_spaced true (clean_query demo_env "What's   new, Pussycat?") = true.
Proof.
  apply (clean_query_spec demo_env eq_refl "What's   new, Pussycat?").
Defined.

Example clean_query_examples :
  clean_query demo_env "What's   new, Pussycat?" = "What s new Pussycat" /\
  clean_query demo_env "https://example.com/page?q=hello" = "hello" /\
  clean_query demo_env "see http://x.org/a?b=1&q=two+words#frag" = "two words".
Proof. repeat split; vm_compute; reflexivity. Qed.

(** C9 as stated fails when the parsing of the address raises.
    [bracket_query] holds [?] and [http://] and no [q] parameter; its
    network location is an opening bracket that nothing closes, which the
    parser refuses; the handler returns the query as it came, 169 characters
    long, with its punctuation. *)
Lemma clean_query_parse_failure :
  contains "?" bracket_query && contains "http://" bracket_query = true /\
  url_q_param demo_env bracket_query = Raise ValueError /\
  clean_query demo_env bracket_query = bracket_query /\
  String.length (clean_query demo_env bracket_query) = 169%nat /\
  contains "://[?" (clean_query demo_env bracket_query) = true.
Proof. repeat split; vm_compute; reflexivity. Qed.

(** ** Evidence from a list of addresses *)

Lemma process_url_some (E : Env) (u : string) (item : source_item) :
  process_url E u = Some item ->
  url item = u /\
  exists html, get_webpage_content E u = Some html /\
               (200 <= String.length (extract_text E html))%nat.
Proof.
  unfold process_url. destruct (get_webpage_content E u) as [html|]; [|discriminate].
  destruct (is_empty html); [discriminate|].
  destruct (is_empty (extract_text E html)); [discriminate|]. cbn [orb].
  destruct (String.length (extract_text E html) <? 200)%nat eqn:Hlen; [discriminate|].
  apply Nat.ltb_ge in Hlen.
  destruct (is_empty (summarize_text E (extract_text E html) 5)); [discriminate|].
  intros [= <-]. split; [reflexivity|]. exists html. split; [reflexivity|assumption].
Qed.

(** The loop appends to what it holds, sends its requests to a prefix of
    the list, and leaves addresses aside only when it holds three entries. *)
Lemma process_urls_loop_spec (E : Env) (urls : list string) :
  forall acc fetched,
  exists new fetched_new rest,
    process_urls_loop E urls acc fetched
      = ((acc ++ new)%list, (fetched ++ fetched_new)%list) /\
    urls = (fetched_new ++ rest)%list /\
    (rest = [] \/ (3 <= List.length (acc ++ new)%list)%nat) /\
    ((List.length acc <= 3)%nat -> (List.length (acc ++ new)%list <= 3)%nat) /\
    Forall (fun item => exists u, In u fetched_new /\ process_url E u = Some item) new.
Proof.
  induction urls as [|u rest IH]; intros acc fetched; cbn [process_urls_loop].
  - exists [], [], []. rewrite !app_nil_r. repeat split; auto.
  - destruct (3 <=? List.length acc)%nat eqn:Hfull.
    + apply Nat.leb_le in Hfull. exists [], [], (u :: rest). rewrite !app_nil_r.
      repeat split; auto.
    + apply Nat.leb_gt in Hfull.
      destruct (process_url E u) as [item|] eqn:Hu.
      * destruct (IH (acc ++ [item])%list (fetched ++ [u])%list)
          as (new & fnew & r & Heq & Hurls & Hstop & Hcap & Hall).
        exists (item :: new), (u :: fnew), r.
        rewrite <- !app_assoc in Heq. cbn [app] in Heq.
        rewrite <- !app_assoc in Hstop, Hcap. cbn [app] in Hstop, Hcap.
        repeat split.
        -- exact Heq.
        -- cbn. now rewrite Hurls.
        -- exact Hstop.
        -- intros _. apply Hcap. rewrite length_app. cbn. lia.
        -- constructor.
           ++ exists u. split; [now left | exact Hu].
           ++ eapply Forall_impl; [|exact Hall].
              intros it (v & Hin & Hv). exists v. split; [now right|exact Hv].
      * destruct (IH acc (fetched ++ [u])%list)
          as (new & fnew & r & Heq & Hurls & Hstop & Hcap & Hall).
        exists new, (u :: fnew), r.
        rewrite <- !app_assoc in Heq. cbn [app] in Heq.
        repeat split; auto.
        -- cbn. now rewrite Hurls.
        -- eapply Forall_impl; [|exact Hall].
           intros it (v & Hin & Hv). exists v. split; [now right|exact Hv].
Qed.



(** Six addresses, the second of which does not answer: the three entries
    come from the first, the third and the fourth, and the last two are not
    fetched. *)
Example process_urls_six :
  let urls := ["https://ok.example/1"; "https://down.example/2"; "https://ok.example/3";
               "https://ok.example/4"; "https://ok.example/5"; "https://ok.example/6"] in
  map url (fst (process_urls_trace demo_env urls))
    = ["https://ok.example/1"; "https://ok.example/3"; "https://ok.example/4"] /\
  snd (process_urls_trace demo_env urls)
    = ["https://ok.example/1"; "https://down.example/2"; "https://ok.example/3";
       "https://ok.example/4"].
Proof. split; vm_compute; reflexivity. Qed.

(** ** The prompt of [create_question_answer] *)


Section Budget.

Variable E : Env.
Hypothesis rounding : rounding_ok (float_target E).









End Budget.


(** On [large_sources] each page is cut from 50,000 tokens to 30,006, and
    the user prompt is 90,309 tokens; on [many_sources] the sections add up
    to 211,129 tokens and the final check cuts them to 160,880. *)
Example prompt_sizes :
  (c <- visible_content demo_env true 33333 large_page ;; Ret (estimate_tokens c))
    = Ret 30006 /\
  (user <- qa_user_prompt demo_env "What is a cat?" large_sources [] ;;
   Ret (estimate_tokens user)) = Ret 90309 /\
  (combined <- qa_combined_prompt demo_env "What is a cat?" many_sources [] ;;
   Ret (estimate_tokens combined)) = Ret 211129 /\
  (user <- qa_user_prompt demo_env "What is a cat?" many_sources [] ;;
   Ret (estimate_tokens user)) = Ret 160880.
Proof.
  split; [vm_compute; reflexivity|]. split; [vm_compute; reflexivity|].
  split; vm_compute; reflexivity.
Qed.


(** ** The pipeline *)

Section Pipeline.

Variable E : Env.

Lemma create_question_answer_data (site : call_site) (q : string) (s : list source_item)
  (m : model) (hist : list history_item) (b : bool) (d : result_data) :
  create_question_answer E site q s m hist = Ret (b, d) ->
  r_summaries d = s /\ r_isQuestion d = true.
Proof.
  unfold create_question_answer. destruct (qa_user_prompt E q s hist); [|discriminate].
  cbn [bind].
  destruct (generate_llm_response _ _ _ _ _) as [[ok ans] t].
  destruct ok; intros H; inversion H; subst; cbn; auto.
Qed.

Lemma create_summary_data (site : call_site) (q : string) (s : list source_item)
  (m : model) (b : bool) (d : result_data) :
  create_summary E site q s m = Ret (b, d) ->
  r_summaries d = s /\ r_isQuestion d = false.
Proof.
  unfold create_summary. destruct (summary_user_prompt E q s); [|discriminate]. cbn [bind].
  destruct (generate_llm_response _ _ _ _ _) as [[ok ans] t].
  destruct ok; intros H; inversion H; subst; cbn; auto.
Qed.

(** A response of the end of [process_query] carries the evidence and the
    question flag it was reached with. *)
Lemma finish_query_data (clean : string) (is_q : bool) (s : list source_item)
  (mi : option model) (hist : list history_item) (d : result_data) :
  finish_query E clean is_q s mi hist = Ret (Success d) ->
  r_summaries d = s /\ r_isQuestion d = is_q.
Proof.
  unfold finish_query. destruct s as [|s0 s], mi as [m|].
  - destruct is_q; [|intros [= <-]; auto].
    destruct (create_question_answer E NoSourceAnswer clean [] m hist) as [[b r]|] eqn:Hqa;
      [|discriminate]. cbn [bind fst snd].
    destruct b; intros [= <-]; [|auto].
    now apply create_question_answer_data in Hqa.
  - intros [= <-]; auto.
  - destruct is_q.
    + destruct (create_question_answer E FinalAnswer clean (s0 :: s) m hist)
        as [[b r]|] eqn:Hqa; [|discriminate]. cbn [bind fst snd].
      destruct b; intros [= <-]; [|auto].
      now apply create_question_answer_data in Hqa.
    + destruct (create_summary E FinalSummary clean (s0 :: s) m) as [[b r]|] eqn:Hs;
        [|discriminate]. cbn [bind fst snd].
      destruct b; intros [= <-]; [|auto].
      now apply create_summary_data in Hs.
  - intros [= <-]; auto.
Qed.

Lemma catch_success (m : outcome response) (d : result_data) :
  catch m (fun e => Failure e) = Success d -> m = Ret (Success d).
Proof. destruct m; cbn; [now intros -> | discriminate]. Qed.

(** Inversion of a successful run of [process_query]. *)
Lemma process_query_answered (query : string) (urls : list string) (pc : option page)
  (mi : option model) (arg : option bool) (hist : list history_item) (d : result_data) :
  process_query E query urls pc mi arg hist = Success d ->
  answered_by E query urls pc mi arg hist d.
Proof.
  unfold process_query. intros H. apply catch_success in H. cbv zeta in H.
  set (is_q := query_is_question E query arg mi) in *.
  set (clean := clean_query E query) in *.
  assert (Hfin : forall s,
     ((s = context_summaries E is_q mi /\
       (forall p m, pc = Some p -> mi = Some m -> is_q = true ->
                    direct_summaries E query true p mi = [])) \/
      exists p m, pc = Some p /\ mi = Some m /\ is_q = true /\
                  s = direct_summaries E query true p mi /\ s <> []) ->
     finish_query E clean is_q (normal_summaries E query clean urls pc s) mi hist
       = Ret (Success d) ->
     answered_by E query urls pc mi arg hist d).
  { intros s Hs Hf. eapply by_finish; eauto. }
  destruct pc as [p|], mi as [m|]; cbn [bind] in H;
    try (refine (Hfin _ _ H); left; split; [reflexivity | intros; discriminate]).
  assert (Hdirect :
    (direct <-
       (if is_q
        then
          if is_nil (direct_summaries E query is_q p (Some m))
          then Ret (inr (direct_summaries E query is_q p (Some m)))
          else
            r <- create_question_answer E DirectAnswer clean
                   (direct_summaries E query is_q p (Some m)) m hist ;;
            (if fst r then Ret (inl (snd r))
             else Ret (inr (direct_summaries E query is_q p (Some m))))
        else Ret (inr (context_summaries E is_q (Some m)))) ;;
     match direct with
     | inl data => Ret (Success data)
     | inr summaries =>
         finish_query E clean is_q (normal_summaries E query clean urls (Some p) summaries)
           (Some m) hist
     end) = Ret (Success d) ->
    answered_by E query urls (Some p) (Some m) arg hist d).
  { clear H. intros H. destruct is_q eqn:Hq.
    - destruct (is_nil (direct_summaries E query true p (Some m))) eqn:Hnil.
      + cbn [bind] in H. apply (Hfin (direct_summaries E query true p (Some m))); [|exact H].
        left. assert (Hd : direct_summaries E query true p (Some m) = [])
          by (destruct (direct_summaries E query true p (Some m)); [reflexivity | discriminate]).
        split.
        * rewrite Hd. unfold direct_summaries in Hd. apply app_eq_nil in Hd. symmetry. tauto.
        * intros p0 m0 [= <-] [= <-] _. exact Hd.
      + destruct (create_question_answer E DirectAnswer clean _ m hist) as [[b r]|] eqn:Hqa;
          [|discriminate]. cbn [bind fst snd] in H. destruct b.
        * injection H as <-. eapply by_direct; eauto.
        * cbn [bind] in H. apply (Hfin (direct_summaries E query true p (Some m))); [|exact H].
          right. exists p, m. repeat split; auto.
          intros Heq. rewrite Heq in Hnil. discriminate.
    - cbn [bind] in H. apply (Hfin (context_summaries E false (Some m))); [|exact H].
      left. split; [reflexivity | intros; discriminate]. }
  destruct (pc_htmlContent p) as [html|]; [|apply Hdirect; exact H].
  destruct (is_q && match mi_isAboutLinks m with Some b => b | None => false end) eqn:Hlinks;
    [|apply Hdirect; exact H].
  destruct (generate_llm_response _ _ _ _ _) as [[ok ans] t].
  destruct ok; [|apply Hdirect; exact H].
  injection H as <-. apply andb_true_iff in Hlinks as [Hq _].
  eapply by_html; eauto.
Qed.




(** C6.  A query that starts with [http://] or [https://] is not a
    question for [is_question]; [process_query] sets its question flag to
    false whatever the caller's flag, the flag of the model information and
    the original query say; and every response it returns for it carries
    [isQuestion = false]. *)
Theorem url_is_never_a_question (query : string) (urls : list string) (pc : option page)
  (mi : option model) (arg : option bool) (hist : list history_item) :
  is_url query = true ->
  is_question E query = false /\
  query_is_question E query arg mi = false /\
  forall d, process_query E query urls pc mi arg hist = Success d -> r_isQuestion d = false.
Proof.
  intros Hurl.
  assert (Hq : query_is_question E query arg mi = false)
    by (unfold query_is_question; now rewrite Hurl).
  split; [unfold is_question; now rewrite Hurl|]. split; [exact Hq|].
  intros d Hrun. apply process_query_answered in Hrun.
  destruct Hrun as [p m _ _ Hyes _ _ | p m _ _ Hyes _ | s Hfin _]; try congruence.
  apply finish_query_data in Hfin as (_ & Hflag). congruence.
Qed.

Lemma generate_llm_response_down (site : call_site) (system user : string) (m : model) :
  provider_down E -> fst (fst (generate_llm_response E site system user m)) = false.
Proof.
  intros Hdown. unfold generate_llm_response.
  destruct (is_empty (mi_api_key m)); [reflexivity|].
  destruct (mem_string _ supported_providers); [|reflexivity].
  destruct (Hdown site (lower E (mi_provider m)) (mi_api_key m) system user) as [e ->].
  reflexivity.
Qed.

Lemma create_question_answer_down (site : call_site) (q : string) (s : list source_item)
  (m : model) (hist : list history_item) (b : bool) (d : result_data) :
  provider_down E -> create_question_answer E site q s m hist = Ret (b, d) -> b = false.
Proof.
  intros Hdown. unfold create_question_answer.
  destruct (qa_user_prompt E q s hist) as [user|]; [|discriminate]. cbn [bind].
  pose proof (generate_llm_response_down site qa_system_prompt user m Hdown) as Hf.
  destruct (generate_llm_response _ _ _ _ _) as [[ok ans] t]. cbn in Hf. subst ok.
  intros H; inversion H; reflexivity.
Qed.

Lemma create_summary_down (site : call_site) (q : string) (s : list source_item)
  (m : model) (b : bool) (d : result_data) :
  provider_down E -> create_summary E site q s m = Ret (b, d) -> b = false.
Proof.
  intros Hdown. unfold create_summary.
  destruct (summary_user_prompt E q s) as [user|]; [|discriminate]. cbn [bind].
  pose proof (generate_llm_response_down site summary_system_prompt user m Hdown) as Hf.
  destruct (generate_llm_response _ _ _ _ _) as [[ok ans] t]. cbn in Hf. subst ok.
  intros H; inversion H; reflexivity.
Qed.

(** C4, as the code has it.  When every call of the provider raises, a
    response of [process_query] that is a success carries a fixed message
    as its consolidated summary and a generation time of [0]: the time that
    [generate_llm_response] measured up to the failure, and that
    [create_question_answer] and [create_summary] return, is not in it. *)
Theorem generation_failure_reports_zero_time (query : string) (urls : list string)
  (pc : option page) (mi : option model) (arg : option bool) (hist : list history_item)
  (d : result_data) :
  provider_down E ->
  process_query E query urls pc mi arg hist = Success d ->
  r_generation_time d = 0 /\
  (r_consolidated_summary d = Some "Failed to generate a response." \/
   r_consolidated_summary d = Some "No relevant information found." \/
   (r_consolidated_summary d = None /\ mi = None)).
Proof.
  intros Hdown Hrun.
  unfold process_query in Hrun. apply catch_success in Hrun. cbv zeta in Hrun.
  set (is_q := query_is_question E query arg mi) in *.
  set (clean := clean_query E query) in *.
  assert (Hfin : forall s,
    finish_query E clean is_q s mi hist = Ret (Success d) ->
    r_generation_time d = 0 /\
    (r_consolidated_summary d = Some "Failed to generate a response." \/
     r_consolidated_summary d = Some "No relevant information found." \/
     (r_consolidated_summary d = None /\ mi = None))).
  { intros s. unfold finish_query. destruct s as [|s0 s], mi as [m|].
    - destruct is_q; [|intros [= <-]; cbn; auto].
      destruct (create_question_answer E NoSourceAnswer clean [] m hist) as [[b r]|] eqn:Hqa;
        [|discriminate].
      rewrite (create_question_answer_down _ _ _ _ _ _ _ Hdown Hqa). cbn [bind fst snd].
      intros [= <-]; cbn; auto.
    - intros [= <-]; cbn; auto.
    - destruct is_q.
      + destruct (create_question_answer E FinalAnswer clean (s0 :: s) m hist)
          as [[b r]|] eqn:Hqa; [|discriminate].
        rewrite (create_question_answer_down _ _ _ _ _ _ _ Hdown Hqa). cbn [bind fst snd].
        intros [= <-]; cbn; auto.
      + destruct (create_summary E FinalSummary clean (s0 :: s) m) as [[b r]|] eqn:Hs;
          [|discriminate].
        rewrite (create_summary_down _ _ _ _ _ _ Hdown Hs). cbn [bind fst snd].
        intros [= <-]; cbn; auto.
    - intros [= <-]; cbn; auto. }
  destruct pc as [p|], mi as [m|]; cbn [bind] in Hrun; try (eapply Hfin; exact Hrun).
  assert (Hdirect : forall X,
    (direct <-
       (if is_q
        then
          if is_nil (direct_summaries E query is_q p (Some m))
          then Ret (inr (direct_summaries E query is_q p (Some m)))
          else
            r <- create_question_answer E DirectAnswer clean
                   (direct_summaries E query is_q p (Some m)) m hist ;;
            (if fst r then Ret (inl (snd r))
             else Ret (inr (direct_summaries E query is_q p (Some m))))
        else Ret (inr X)) ;;
     match direct with
     | inl data => Ret (Success data)
     | inr summaries =>
         finish_query E clean is_q (normal_summaries E query clean urls (Some p) summaries)
           (Some m) hist
     end) = Ret (Success d) ->
    r_generation_time d = 0 /\
    (r_consolidated_summary d = Some "Failed to generate a response." \/
     r_consolidated_summary d = Some "No relevant information found." \/
     (r_consolidated_summary d = None /\ Some m = None))).
  { intros X H. destruct is_q.
    - destruct (is_nil _); [cbn [bind] in H; eapply Hfin; exact H|].
      destruct (create_question_answer E DirectAnswer clean _ m hist) as [[b r]|] eqn:Hqa;
        [|discriminate].
      rewrite (create_question_answer_down _ _ _ _ _ _ _ Hdown Hqa) in H.
      cbn [bind fst snd] in H. eapply Hfin; exact H.
    - cbn [bind] in H. eapply Hfin; exact H. }
  destruct (pc_htmlContent p) as [html|]; [|eapply Hdirect; exact Hrun].
  destruct (is_q && _); [|eapply Hdirect; exact Hrun].
  pose proof (generate_llm_response_down HtmlAnalysis html_system_prompt
                (html_user_prompt clean p) m Hdown) as Hf.
  destruct (generate_llm_response _ _ _ _ _) as [[ok ans] t]. cbn in Hf. subst ok.
  eapply Hdirect; exact Hrun.
Qed.

End Pipeline.



Lemma url_is_never_a_question_witness :
  is_question demo_env "https://ok.example/1?q=hello what is this?" = false /\
  query_is_question demo_env "https://ok.example/1?q=hello what is this?" (Some true)
    (Some insisting_model) = false /\
  forall d,
    process_query demo_env "https://ok.example/1?q=hello what is this?"
      ["https://ok.example/1"] None (Some insisting_model) (Some true) [] = Success d ->
    r_isQuestion d = false.
Proof.
  apply (url_is_never_a_question demo_env "https://ok.example/1?q=hello what is this?"
           ["https://ok.example/1"] None (Some insisting_model) (Some true) []).
  vm_compute. reflexivity.
Defined.

(** Without the address in front, the same words are a question. *)
Example question_words_alone :
  is_question demo_env "hello what is this?" = true /\
  is_question demo_env "hello what is this" = true /\
  is_question demo_env "hello there" = false.
Proof. repeat split; vm_compute; reflexivity. Qed.

Lemma down_env_is_down : provider_down down_env.
Proof. intros site provider key system user. exists ProviderError. reflexivity. Qed.

(** The provider raises after seven units of time: [create_summary] returns
    the seven units with its failure, [process_query] returns zero. *)
Lemma generation_failure_witness :
  create_summary down_env FinalSummary "Summarize Pets"
    [page_summary_item down_env "Summarize: Pets" pets_page] demo_model
  = Ret (false,
         {| r_query := "Summarize Pets";
            r_summaries := [page_summary_item down_env "Summarize: Pets" pets_page];
            r_consolidated_summary := Some "Failed to generate summary.";
            r_generation_time := 7;
            r_isQuestion := false |}) /\
  process_query down_env "Summarize: Pets" [] (Some pets_page) (Some demo_model)
    (Some false) [] = Success failed_summary /\
  r_generation_time failed_summary = 0 /\
  (r_consolidated_summary failed_summary = Some "Failed to generate a response." \/
   r_consolidated_summary failed_summary = Some "No relevant information found." \/
   (r_consolidated_summary failed_summary = None /\ Some demo_model = None)).
Proof.
  split; [vm_compute; reflexivity|]. split; [vm_compute; reflexivity|].
  apply (generation_failure_reports_zero_time down_env "Summarize: Pets" []
           (Some pets_page) (Some demo_model) (Some false) [] failed_summary).
  - exact down_env_is_down.
  - vm_compute. reflexivity.
Defined.

(** * Further properties *)

(** ** Token estimates and truncation *)

Lemma estimate_tokens_app_le (a b : string) :
  estimate_tokens a + estimate_tokens b <= estimate_tokens (a ++ b).
Proof.
  rewrite !estimate_tokens_len. unfold len. rewrite length_append, Nat2Z.inj_add.
  set (x := Z.of_nat (String.length a)). set (y := Z.of_nat (String.length b)).
  pose proof (Z.div_mod x 4 ltac:(lia)). pose proof (Z.mod_pos_bound x 4 ltac:(lia)).
  pose proof (Z.div_mod y 4 ltac:(lia)). pose proof (Z.mod_pos_bound y 4 ltac:(lia)).
  pose proof (Z.div_mod (x + y) 4 ltac:(lia)). pose proof (Z.mod_pos_bound (x + y) 4 ltac:(lia)).
  lia.
Qed.

(** X1.  The estimate of a concatenation is the sum of the estimates of its
    parts, or one token more: counting section by section, as
    [create_question_answer] does, never counts more than the prompt holds,
    and misses at most one token for each concatenation. *)
Theorem estimate_tokens_append (a b : string) :
  estimate_tokens a + estimate_tokens b <= estimate_tokens (a ++ b)
  <= estimate_tokens a + estimate_tokens b + 1.
Proof.
  rewrite !estimate_tokens_len. unfold len. rewrite length_append, Nat2Z.inj_add.
  set (x := Z.of_nat (String.length a)). set (y := Z.of_nat (String.length b)).
  pose proof (Z.div_mod x 4 ltac:(lia)). pose proof (Z.mod_pos_bound x 4 ltac:(lia)).
  pose proof (Z.div_mod y 4 ltac:(lia)). pose proof (Z.mod_pos_bound y 4 ltac:(lia)).
  pose proof (Z.div_mod (x + y) 4 ltac:(lia)). pose proof (Z.mod_pos_bound (x + y) 4 ltac:(lia)).
  lia.
Qed.

(** X2.  [truncate_content_by_tokens] raises in one case only, whatever the
    arithmetic of the ratio: a text of one to three characters, which is
    estimated at zero tokens, under a negative limit.  The exception is the
    division by the estimate. *)
Theorem truncate_raises_iff (target : Z -> Z -> Z -> Z) (text : string) (max_tokens : Z) (e : exn) :
  truncate_content_by_tokens target text max_tokens = Raise e <->
  (e = ZeroDivisionError /\ (0 < String.length text < 4)%nat /\ max_tokens < 0).
Proof.
  unfold truncate_content_by_tokens.
  destruct (is_empty text) eqn:Hemp.
  { split; [discriminate|]. intros (_ & Hlen & _). destruct text; [cbn in Hlen; lia | discriminate]. }
  assert (Hpos : (0 < String.length text)%nat) by (destruct text; [discriminate | cbn; lia]).
  rewrite estimate_tokens_len. unfold len.
  destruct (Z.of_nat (String.length text) / 4 <=? max_tokens) eqn:Hle.
  { apply Z.leb_le in Hle. split; [discriminate|]. intros (_ & Hlen & Hneg).
    assert (0 <= Z.of_nat (String.length text) / 4) by (apply Z.div_pos; lia). lia. }
  apply Z.leb_gt in Hle.
  destruct (Z.of_nat (String.length text) / 4 =? 0) eqn:Hz.
  - apply Z.eqb_eq in Hz. split.
    + intros [= <-]. split; [reflexivity|]. split; [|lia]. split; [exact Hpos|].
      destruct (Nat.lt_ge_cases (String.length text) 4) as [|Hge]; [assumption|].
      assert (1 <= Z.of_nat (String.length text) / 4) by (apply Z.div_le_lower_bound; lia). lia.
    + intros (-> & _ & _). reflexivity.
  - apply Z.eqb_neq in Hz. split.
    + destruct (_ <? 100); discriminate.
    + intros (_ & Hlen & _). exfalso. apply Hz. apply Z.div_small. lia.
Qed.

(** X3.  Under a limit that is not negative, truncation returns a text;
    below 74 tokens the result can exceed the limit, by at most 8 tokens
    and never beyond 32 tokens, because at least 100 characters are kept
    and the marker is appended after the cut.  A text that is cut keeps at
    least its first 100 characters. *)
Theorem truncate_overshoot (target : Z -> Z -> Z -> Z) (text : string) (k : Z) :
  rounding_ok target -> 0 <= k ->
  exists r,
    truncate_content_by_tokens target text k = Ret r /\
    estimate_tokens r <= Z.max (k + 8) 32 /\
    (r = text \/
     exists n, (100 <= n)%nat /\ r = take n text ++ truncation_marker).
Proof.
  intros Hr Hk. unfold truncate_content_by_tokens.
  destruct (is_empty text) eqn:Hemp.
  { exists text. destruct text; [|discriminate]. cbn. repeat split; try lia. now left. }
  destruct (estimate_tokens text <=? k) eqn:Hle.
  { apply Z.leb_le in Hle. exists text. repeat split; try lia. now left. }
  apply Z.leb_gt in Hle.
  destruct (estimate_tokens text =? 0) eqn:Hz; [apply Z.eqb_eq in Hz; lia|].
  pose proof (float_target_bounds target (len text) k (estimate_tokens text) Hr Hk Hle
                (estimate_tokens_len text)) as Hb.
  set (t := target (len text) k (estimate_tokens text)) in *.
  destruct (t <? 100) eqn:Ht.
  - exists (take 100 text ++ truncation_marker). split; [reflexivity|]. split.
    + rewrite estimate_tokens_len. unfold len. rewrite length_append, length_take.
      cbn [truncation_marker String.length].
      enough (Z.of_nat (Nat.min 100 (String.length text) + 29) / 4 < 33) by lia.
      apply Z.div_lt_upper_bound; lia.
    + right. exists 100%nat. split; [lia|reflexivity].
  - apply Z.ltb_ge in Ht.
    exists (take (Z.to_nat t) text ++ truncation_marker). split; [reflexivity|]. split.
    + rewrite estimate_tokens_len. unfold len. rewrite length_append, length_take.
      cbn [truncation_marker String.length].
      enough (Z.of_nat (Nat.min (Z.to_nat t) (String.length text) + 29) / 4 < k + 9) by lia.
      apply Z.div_lt_upper_bound; lia.
    + right. exists (Z.to_nat t). split; [lia|reflexivity].
Qed.

Lemma truncate_overshoot_witness :
  exists r,
    truncate_content_by_tokens exact_target_length thousand 10 = Ret r /\
    estimate_tokens r <= Z.max (10 + 8) 32 /\
    (r = thousand \/ exists n, (100 <= n)%nat /\ r = take n thousand ++ truncation_marker).
Proof.
  apply (truncate_overshoot exact_target_length thousand 10); [exact exact_rounding_ok | lia].
Defined.

(** ** Strings *)

Lemma is_empty_eq (s : string) : is_empty s = true <-> s = "".
Proof. destruct s; cbn; split; congruence. Qed.

Lemma is_empty_false (s : string) : s <> "" -> is_empty s = false.
Proof. destruct s; [contradiction | reflexivity]. Qed.

Lemma len_append (s t : string) : len (s ++ t) = len s + len t.
Proof. unfold len. rewrite length_append. lia. Qed.

Lemma length_drop (n : nat) (s : string) :
  String.length (drop n s) = (String.length s - n)%nat.
Proof.
  revert s. induction n as [|n IH]; intros s; cbn [drop]; [lia|].
  destruct s as [|c s]; cbn [String.length]; [reflexivity | apply IH].
Qed.

Lemma remove_all_fuel_irrelevant (old : string) :
  old <> "" ->
  forall fuel1 fuel2 s,
    (String.length s <= fuel1)%nat -> (String.length s <= fuel2)%nat ->
    remove_all_fuel fuel1 old s = remove_all_fuel fuel2 old s.
Proof.
  intros Hold.
  assert (Hlen : (0 < String.length old)%nat)
    by (destruct old; [contradiction | cbn; lia]).
  induction fuel1 as [|fuel1 IH]; intros fuel2 s H1 H2.
  - destruct s; [|cbn in H1; lia]. destruct fuel2; reflexivity.
  - destruct fuel2 as [|fuel2].
    + destruct s; [reflexivity | cbn in H2; lia].
    + cbn [remove_all_fuel]. destruct s as [|c s]; [reflexivity|].
      cbn [String.length] in H1, H2.
      destruct (String.prefix old (String c s)).
      * apply IH; rewrite length_drop; cbn [String.length]; lia.
      * f_equal. apply IH; lia.
Qed.

Lemma remove_all_fuel_length (old : string) (fuel : nat) :
  forall s, (String.length (remove_all_fuel fuel old s) <= String.length s)%nat.
Proof.
  induction fuel as [|fuel IH]; intros s; cbn [remove_all_fuel]; [lia|].
  destruct s as [|c s]; [cbn; lia|].
  destruct (String.prefix old (String c s)).
  - etransitivity; [apply IH|]. rewrite length_drop. lia.
  - cbn [String.length]. specialize (IH s). lia.
Qed.

Lemma remove_all_fuel_absent (old : string) (fuel : nat) :
  forall s, contains old s = false -> remove_all_fuel fuel old s = s.
Proof.
  induction fuel as [|fuel IH]; intros s Hc; cbn [remove_all_fuel]; [reflexivity|].
  destruct s as [|c s]; [reflexivity|].
  cbn [contains] in Hc. apply orb_false_iff in Hc as [Hp Hc].
  rewrite Hp. f_equal. now apply IH.
Qed.

(** X4.  The model of [str.replace(old, "")] does not depend on its fuel:
    every fuel of at least the length of the text gives the result of
    [remove_all].  The result is never longer than the text, and a text
    without the marker is left as it is. *)
Theorem remove_all_fuel_enough (old s : string) (fuel : nat) :
  old <> "" ->
  (String.length s <= fuel)%nat ->
  remove_all_fuel fuel old s = remove_all old s /\
  (String.length (remove_all old s) <= String.length s)%nat /\
  (contains old s = false -> remove_all old s = s).
Proof.
  intros Hold Hfuel. split; [|split].
  - unfold remove_all. now apply remove_all_fuel_irrelevant.
  - apply remove_all_fuel_length.
  - apply remove_all_fuel_absent.
Qed.

Lemma remove_all_fuel_enough_witness :
  remove_all_fuel 40 "DIRECT QUESTION:" "DIRECT QUESTION: What is a cat?"
    = remove_all "DIRECT QUESTION:" "DIRECT QUESTION: What is a cat?" /\
  (String.length (remove_all "DIRECT QUESTION:" "DIRECT QUESTION: What is a cat?")
   <= String.length "DIRECT QUESTION: What is a cat?")%nat /\
  (contains "DIRECT QUESTION:" "DIRECT QUESTION: What is a cat?" = false ->
   remove_all "DIRECT QUESTION:" "DIRECT QUESTION: What is a cat?"
   = "DIRECT QUESTION: What is a cat?").
Proof.
  apply (remove_all_fuel_enough "DIRECT QUESTION:" "DIRECT QUESTION: What is a cat?" 40).
  - discriminate.
  - vm_compute. lia.
Defined.

(** ** [extract_text] *)

Section Extraction.
Variable E : Env.
Hypothesis space_is_space : is_space E space = true.
Hypothesis newline_is_space : is_space E (ascii_of_nat 10) = true.

Lemma sub_runs_plain (s : string) :
  forall b, all_chars (plain_char E) (sub_runs (is_space E) b s).
Proof.
  induction s as [|c s IH]; intros b; simpl; [exact I|].
  destruct (is_space E c) eqn:Hc.
  - destruct b; simpl; [apply IH|]. split; [now left | apply IH].
  - simpl. split; [now right | apply IH].
Qed.

Lemma sub_runs_none (p : ascii -> bool) (s : string) :
  all_chars (fun c => p c = false) s -> forall b, sub_runs p b s = s.
Proof.
  induction s as [|c s IH]; intros H b; simpl; [reflexivity|].
  destruct H as [Hc Hs]. rewrite Hc. now rewrite IH.
Qed.

Lemma lstrip_no_leading_space (s : string) : String.prefix " " (lstrip E s) = false.
Proof.
  induction s as [|c s IH]; cbn [lstrip]; [reflexivity|].
  destruct (is_space E c) eqn:Hc; [exact IH|].
  cbn [String.prefix]. destruct (ascii_dec " "%char c) as [Heq|Hne]; [|reflexivity].
  subst c. change " "%char with space in Hc. congruence.
Qed.

(** X5.  Whatever the parser returns, the text of [extract_text] has no
    two spaces in a row, no whitespace other than the space, and no space at
    either end; the second substitution, for line breaks, finds nothing to
    replace.  An empty document gives the empty text. *)
Theorem extract_text_clean (html_content : string) :
  single_spaced true (extract_text E html_content) = true /\
  all_chars (plain_char E) (extract_text E html_content) /\
  endswith " " (extract_text E html_content) = false /\
  extract_text E "" = "".
Proof.
  assert (Hempty : extract_text E "" = "") by reflexivity.
  unfold extract_text.
  destruct (is_empty html_content); [repeat split; reflexivity|].
  set (raw := sub_runs (is_space E) false (soup_get_text E html_content)).
  assert (Hplain : all_chars (plain_char E) (strip E raw)).
  { pose proof (sub_runs_plain (soup_get_text E html_content) false) as H. fold raw in H.
    unfold strip.
    destruct (lstrip_suffix E raw) as [y Hy]. rewrite Hy in H. apply all_chars_app in H as [_ H].
    destruct (rstrip_prefix E (lstrip E raw)) as [t Ht]. rewrite Ht in H.
    now apply all_chars_app in H. }
  assert (Hid : sub_runs (Ascii.eqb (ascii_of_nat 10)) false (strip E raw) = strip E raw).
  { apply sub_runs_none. revert Hplain. generalize (strip E raw).
    induction s as [|c s IH]; cbn [all_chars]; [auto|]. intros [Hc Hs]. split; [|auto].
    destruct Hc as [->|Hc]; [reflexivity|].
    apply Ascii.eqb_neq. intros <-. congruence. }
  rewrite Hid. split; [|split; [exact Hplain|split; [|exact Hempty]]].
  - unfold strip.
    pose proof (lstrip_single_spaced E space_is_space raw false
                  (sub_runs_single_spaced E space_is_space _ false)) as H.
    destruct (rstrip_prefix E (lstrip E raw)) as [t Ht]. rewrite Ht in H.
    now apply single_spaced_prefix in H.
  - unfold endswith, strip, rstrip. rewrite rev_string_involutive.
    apply lstrip_no_leading_space.
Qed.
End Extraction.

Lemma extract_text_clean_witness :
  single_spaced true (extract_text demo_env untidy_page) = true /\
  all_chars (plain_char demo_env) (extract_text demo_env untidy_page) /\
  endswith " " (extract_text demo_env untidy_page) = false /\
  extract_text demo_env "" = "".
Proof. exact (extract_text_clean demo_env eq_refl eq_refl untidy_page). Defined.

(** ** [summarize_text] *)

Lemma mem_string_in (w : string) (l : list string) :
  mem_string w l = true <-> In w l.
Proof.
  unfold mem_string. rewrite existsb_exists. split.
  - intros (x & Hx & Heq). apply String.eqb_eq in Heq. now subst.
  - intros H. exists w. split; [exact H | apply String.eqb_refl].
Qed.

Lemma freq_positive (word_tokens : list string) (word : string) :
  mem_string word word_tokens = true -> (0 < freq word_tokens word)%nat.
Proof.
  intros H. apply mem_string_in in H. unfold freq.
  assert (Hin : In word (filter (String.eqb word) word_tokens))
    by (apply filter_In; split; [exact H | apply String.eqb_refl]).
  destruct (filter (String.eqb word) word_tokens); [contradiction | cbn; lia].
Qed.

(** X6.  Every entry of [sentence_scores] has a positive score, and the
    sentence it stands for has a word of the frequency distribution: a
    sentence without such a word has no entry at all. *)
Theorem sentence_scores_positive (E : Env) (word_tokens sentences : list string) :
  forall (i : nat) (scores : list (nat * nat)),
    score_sentences E word_tokens i sentences = Ret scores ->
    Forall (fun entry =>
              (0 < snd entry)%nat /\
              exists words word,
                word_tokenize E (lower E (nth (fst entry - i) sentences "")) = Ret words /\
                In word words /\ In word word_tokens) scores.
Proof.
  induction sentences as [|sentence rest IH]; intros i scores; cbn [score_sentences].
  - intros [= <-]. constructor.
  - destruct (word_tokenize E (lower E sentence)) as [words|] eqn:Hwords; [|discriminate].
    cbn [bind].
    destruct (score_sentences E word_tokens (S i) rest) as [tail|] eqn:Htail; [|discriminate].
    cbn [bind]. intros [= <-].
    pose proof (score_sentences_indices E word_tokens rest (S i) tail Htail) as [_ Hrange].
    assert (Htl : Forall (fun entry =>
              (0 < snd entry)%nat /\
              exists words word,
                word_tokenize E (lower E (nth (fst entry - i) (sentence :: rest) "")) = Ret words /\
                In word words /\ In word word_tokens) tail).
    { specialize (IH (S i) tail Htail).
      rewrite Forall_forall in IH |- *. intros entry Hentry.
      destruct (IH entry Hentry) as (Hpos & ws & w & Hws & Hw).
      split; [exact Hpos|]. exists ws, w. split; [|exact Hw].
      rewrite Forall_forall in Hrange.
      assert (S i <= fst entry)%nat by (apply Hrange; now apply in_map).
      replace (fst entry - i)%nat with (S (fst entry - S i)) by lia. exact Hws. }
    destruct (filter (fun word => mem_string word word_tokens) words) as [|hit hits] eqn:Hhits;
      [exact Htl|].
    constructor; [|exact Htl]. cbn [fst snd].
    assert (Hhit : In hit (filter (fun word => mem_string word word_tokens) words))
      by (rewrite Hhits; now left).
    apply filter_In in Hhit as [Hin Hmem].
    split.
    + cbn [map list_sum fold_right]. pose proof (freq_positive word_tokens hit Hmem). lia.
    + exists words, hit. rewrite Nat.sub_diag. cbn [nth].
      split; [exact Hwords|]. split; [exact Hin | now apply mem_string_in].
Qed.

Lemma sentence_scores_positive_witness :
  Forall (fun entry =>
            (0 < snd entry)%nat /\
            exists words word,
              word_tokenize demo_env (lower demo_env (nth (fst entry - 0) cats_sentences ""))
                = Ret words /\
              In word words /\ In word (content_words demo_env cats_tokens)) cats_scores.
Proof.
  apply (sentence_scores_positive demo_env (content_words demo_env cats_tokens)
           cats_sentences 0%nat cats_scores).
  reflexivity.
Defined.

Lemma insert_by_score_ranked (x : nat * nat) (l : list (nat * nat)) :
  StronglySorted ranks_before l ->
  Forall (fun y => fst x < fst y)%nat l ->
  StronglySorted ranks_before (insert_by_score x l).
Proof.
  induction 1 as [|y l Hl IH Hy]; intros Hx; cbn [insert_by_score].
  - repeat constructor.
  - inversion Hx as [|? ? Hxy Hxl]; subst.
    destruct (snd y <=? snd x)%nat eqn:Hle.
    + apply Nat.leb_le in Hle. constructor; [now constructor|].
      constructor.
      * unfold ranks_before. lia.
      * rewrite Forall_forall in Hy, Hxl |- *. intros z Hz.
        specialize (Hy z Hz). specialize (Hxl z Hz). unfold ranks_before in *. lia.
    + apply Nat.leb_gt in Hle. constructor; [now apply IH|].
      eapply Permutation_Forall; [symmetry; apply insert_by_score_perm|].
      constructor; [unfold ranks_before; lia | exact Hy].
Qed.

Lemma sort_by_score_ranked (l : list (nat * nat)) :
  StronglySorted lt (map fst l) ->
  StronglySorted ranks_before (fold_right insert_by_score [] l).
Proof.
  induction l as [|x l IH]; cbn [map fold_right]; intros Hinc; [constructor|].
  inversion Hinc as [|? ? Hl Hx]; subst.
  apply insert_by_score_ranked; [now apply IH|].
  eapply Permutation_Forall; [symmetry; apply sort_by_score_perm|].
  rewrite Forall_forall in Hx |- *. intros y Hy. apply Hx. now apply in_map.
Qed.

Lemma sorted_app_ranked (A : Type) (R : A -> A -> Prop) (l1 l2 : list A) :
  StronglySorted R (l1 ++ l2) -> forall x y, In x l1 -> In y l2 -> R x y.
Proof.
  induction l1 as [|a l1 IH]; cbn; intros Hs x y Hx Hy; [contradiction|].
  inversion Hs as [|? ? Hs' Ha]; subst.
  destruct Hx as [<-|Hx]; [|now apply IH].
  rewrite Forall_forall in Ha. apply Ha. apply in_or_app. now right.
Qed.

(** What [summarize_text] keeps of a non-empty list of scores. *)
Lemma kept_sentences (n : nat) (scores : list (nat * nat)) (bound : nat) :
  StronglySorted lt (map fst scores) ->
  Forall (fun k => k < bound)%nat (map fst scores) ->
  let kept := sorted_by_index (nlargest n scores) in
  List.length kept = Nat.min n (List.length scores) /\
  StronglySorted lt (map fst kept) /\
  Forall (fun k => k < bound)%nat (map fst kept) /\
  incl kept scores /\
  (forall x y, In x kept -> In y scores -> ~ In y kept -> ranks_before x y).
Proof.
  intros Hinc Hrange. cbv zeta.
  set (sorted := fold_right insert_by_score [] scores).
  set (top := nlargest n scores).
  assert (Hsplit : sorted = (top ++ skipn n sorted)%list)
    by (unfold top, nlargest; fold sorted; now rewrite firstn_skipn).
  assert (Hperm : Permutation (top ++ skipn n sorted) scores)
    by (rewrite <- Hsplit; apply sort_by_score_perm).
  assert (Hkept : Permutation (sorted_by_index top) top) by apply sorted_by_index_perm.
  assert (Hperm' : Permutation (map fst (sorted_by_index top) ++ map fst (skipn n sorted))
                               (map fst scores)).
  { rewrite <- map_app. apply Permutation_map. now rewrite Hkept. }
  split; [|split; [|split; [|split]]].
  - rewrite (Permutation_length Hkept). unfold top, nlargest. fold sorted.
    rewrite length_firstn. unfold sorted.
    now rewrite (Permutation_length (sort_by_score_perm scores)).
  - apply sorted_nodup_increasing; [apply sorted_by_index_sorted|].
    apply increasing_nodup in Hinc.
    apply (Permutation_NoDup (Permutation_sym Hperm')) in Hinc.
    now apply NoDup_app_remove_r in Hinc.
  - apply (Permutation_Forall (Permutation_sym Hperm')) in Hrange.
    now apply Forall_app in Hrange as [Hrange _].
  - intros x Hx. apply (Permutation_in _ Hperm). apply in_or_app. left.
    now apply (Permutation_in _ Hkept).
  - intros x y Hx Hy Hny.
    assert (Hranked : StronglySorted ranks_before (top ++ skipn n sorted))
      by (rewrite <- Hsplit; now apply sort_by_score_ranked).
    apply (sorted_app_ranked _ _ _ _ Hranked).
    + now apply (Permutation_in _ Hkept).
    + apply (Permutation_in _ (Permutation_sym Hperm)) in Hy.
      apply in_app_or in Hy as [Hy|Hy]; [|exact Hy].
      exfalso. apply Hny. now apply (Permutation_in _ (Permutation_sym Hkept)).
Qed.

Section Summaries.
Variable E : Env.

(** X7.  On a text that is ranked, the sentences [summarize_text] keeps are
    [n] scored sentences, or all of them when fewer are scored, and each of
    them ranks before each scored sentence that is left out: its score is
    higher, or equal with an earlier position in the text. *)
Theorem summarize_text_keeps_best (text : string) (n : nat)
  (sentences tokens : list string) (scores : list (nat * nat)) :
  (100 <= String.length text)%nat ->
  sent_tokenize E text = Ret sentences ->
  (n < List.length sentences)%nat ->
  word_tokenize E (lower E text) = Ret tokens ->
  score_sentences E (content_words E tokens) 0 sentences = Ret scores ->
  scores <> [] ->
  exists kept,
    summarize_text E text n = selection sentences (map fst kept) /\
    List.length kept = Nat.min n (List.length scores) /\
    incl kept scores /\
    (forall x y, In x kept -> In y scores -> ~ In y kept -> ranks_before x y).
Proof.
  intros Hlen Hsent Hn Htok Hscores Hne.
  destruct (score_sentences_indices _ _ _ _ _ Hscores) as [Hinc Hrange].
  destruct (kept_sentences n scores (0 + List.length sentences) Hinc) as (Hl & _ & _ & Hincl & Hbest).
  { eapply Forall_impl; [|exact Hrange]. cbn. intros; lia. }
  exists (sorted_by_index (nlargest n scores)).
  split; [|split; [exact Hl | split; [exact Hincl | exact Hbest]]].
  unfold summarize_text.
  assert (is_empty text = false) as -> by (destruct text; [cbn in Hlen; lia | reflexivity]).
  assert ((String.length text <? 100)%nat = false) as -> by (apply Nat.ltb_ge; lia).
  cbn [orb]. rewrite Hsent. cbn [bind].
  assert ((List.length sentences <=? n)%nat = false) as -> by (apply Nat.leb_gt; lia).
  rewrite Htok. cbn [bind]. rewrite Hscores. cbn [bind catch].
  destruct scores as [|sc scores]; [contradiction|].
  unfold selection. now rewrite map_map.
Qed.

(** X8.  For every text and every tokenizer, failing or not,
    [summarize_text] returns the text itself, or the first 500 characters of
    a longer text followed by three dots, or at most [n] sentences of the
    text taken at increasing positions and joined by spaces. *)
Theorem summarize_text_shape (text : string) (n : nat) :
  summarize_text E text n = text \/
  ((500 < String.length text)%nat /\ summarize_text E text n = take 500 text ++ "...") \/
  exists sentences idxs,
    sent_tokenize E text = Ret sentences /\
    (List.length idxs <= n)%nat /\
    StronglySorted lt idxs /\
    Forall (fun i => i < List.length sentences)%nat idxs /\
    summarize_text E text n = selection sentences idxs.
Proof.
  unfold summarize_text.
  destruct (is_empty text || (String.length text <? 100)%nat); [now left|].
  assert (Hfallback :
    (if (500 <? String.length text)%nat then take 500 text ++ "..." else text) = text \/
    ((500 < String.length text)%nat /\
     (if (500 <? String.length text)%nat then take 500 text ++ "..." else text)
     = take 500 text ++ "...")).
  { destruct (500 <? String.length text)%nat eqn:H; [|now left].
    apply Nat.ltb_lt in H. right. now split. }
  destruct (sent_tokenize E text) as [sentences|e] eqn:Hsent; cbn [bind catch];
    [|destruct Hfallback as [->|[? ->]]; auto].
  destruct (List.length sentences <=? n)%nat eqn:Hcount; cbn [catch]; [now left|].
  apply Nat.leb_gt in Hcount.
  destruct (word_tokenize E (lower E text)) as [tokens|e]; cbn [bind catch];
    [|destruct Hfallback as [->|[? ->]]; auto].
  destruct (score_sentences E (content_words E tokens) 0 sentences) as [scores|e] eqn:Hscores;
    cbn [bind catch]; [|destruct Hfallback as [->|[? ->]]; auto].
  right. right. exists sentences.
  destruct scores as [|sc scores].
  - exists (seq 0 n). rewrite length_seq. split; [reflexivity|]. split; [lia|].
    split; [apply seq_increasing|]. split.
    + apply Forall_forall. intros k Hk. apply in_seq in Hk. lia.
    + unfold selection. now rewrite (firstn_seq_nth _ "" sentences n) by lia.
  - destruct (score_sentences_indices _ _ _ _ _ Hscores) as [Hinc Hrange].
    destruct (kept_sentences n (sc :: scores) (0 + List.length sentences) Hinc)
      as (Hl & Hsorted & Hr & _).
    { eapply Forall_impl; [|exact Hrange]. cbn. intros; lia. }
    exists (map fst (sorted_by_index (nlargest n (sc :: scores)))).
    split; [reflexivity|]. split; [rewrite length_map, Hl; lia|].
    split; [exact Hsorted|]. split; [exact Hr|].
    unfold selection. now rewrite map_map.
Qed.
End Summaries.

Lemma summarize_text_keeps_best_witness :
  exists kept,
    summarize_text demo_env cats_text 3 = selection cats_sentences (map fst kept) /\
    List.length kept = Nat.min 3 (List.length cats_scores) /\
    incl kept cats_scores /\
    (forall x y, In x kept -> In y cats_scores -> ~ In y kept -> ranks_before x y).
Proof.
  apply (summarize_text_keeps_best demo_env cats_text 3 cats_sentences cats_tokens cats_scores).
  - vm_compute. lia.
  - reflexivity.
  - vm_compute. lia.
  - reflexivity.
  - reflexivity.
  - discriminate.
Defined.

(** ** Search and fetched pages *)

Lemma unique_spec (l : list string) :
  forall seen,
    NoDup (unique seen l) /\
    subsequence (unique seen l) l /\
    (forall x, In x (unique seen l) <-> In x l /\ ~ In x seen).
Proof.
  induction l as [|x l IH]; intros seen; cbn [unique].
  - split; [constructor|]. split; [constructor|]. intros x. cbn. tauto.
  - destruct (mem_string x seen) eqn:Hmem.
    + destruct (IH seen) as (Hnd & Hsub & Hin).
      split; [exact Hnd|]. split; [now constructor|].
      intros y. rewrite Hin. cbn. apply mem_string_in in Hmem.
      split; [tauto|]. intros [[<-|Hy] Hn]; [contradiction | tauto].
    + destruct (IH (x :: seen)) as (Hnd & Hsub & Hin).
      assert (Hx : ~ In x seen).
      { intros Hx. apply mem_string_in in Hx. congruence. }
      split; [|split].
      * constructor; [|exact Hnd]. rewrite Hin. cbn. tauto.
      * now constructor.
      * intros y. cbn [In]. rewrite Hin. cbn [In].
        destruct (string_dec x y) as [<-|Hne]; tauto.
Qed.

Lemma subsequence_nil_l (A : Type) (l : list A) : subsequence [] l.
Proof. induction l; constructor; auto. Qed.

Lemma subsequence_firstn (A : Type) (n : nat) (l : list A) : subsequence (firstn n l) l.
Proof.
  revert n. induction l as [|x l IH]; intros [|n]; cbn [firstn].
  - constructor.
  - constructor.
  - apply subsequence_nil_l.
  - apply subsequence_keep. apply IH.
Qed.

Lemma subsequence_trans (A : Type) (l2 l3 : list A) :
  subsequence l2 l3 -> forall l1, subsequence l1 l2 -> subsequence l1 l3.
Proof.
  induction 1 as [|x l2 l3 H IH|x l2 l3 H IH]; intros l1 H1.
  - exact H1.
  - constructor. now apply IH.
  - inversion H1; subst.
    + constructor. now apply IH.
    + apply subsequence_keep. now apply IH.
Qed.

Lemma subsequence_nodup (A : Type) (l1 l2 : list A) :
  subsequence l1 l2 -> NoDup l2 -> NoDup l1.
Proof.
  induction 1 as [|x l1 l2 H IH|x l1 l2 H IH]; intros Hnd.
  - constructor.
  - inversion Hnd; subst. auto.
  - inversion Hnd as [|? ? Hx Hl]; subst. constructor; [|auto].
    intros Hin. apply Hx. clear -H Hin.
    induction H; cbn in *; tauto.
Qed.

(** X9.  [get_google_search_results] returns at most five addresses,
    without repetition, in the order in which the result page lists them and
    starting with the first of them; it returns none when the page cannot
    be fetched or is empty. *)
Theorem search_results_unique (E : Env) (query : string) :
  let search_url := "https://www.google.com/search?q=" ++ quote E query ++ "&num=10" in
  let results := get_google_search_results E query in
  (List.length results <= 5)%nat /\
  NoDup results /\
  match get_webpage_content E search_url with
  | None => results = []
  | Some content =>
      subsequence results (soup_search_links E content) /\
      (content = "" -> results = []) /\
      (content <> "" -> hd_error results = hd_error (soup_search_links E content))
  end.
Proof.
  cbv zeta. unfold get_google_search_results.
  destruct (get_webpage_content E _) as [content|]; [|repeat split; [cbn; lia | constructor]].
  destruct (is_empty content) eqn:Hemp.
  { split; [cbn; lia|]. split; [constructor|].
    destruct content; [|discriminate]. split; [|split]; auto.
    - apply subsequence_nil_l.
    - intros H. now contradiction H. }
  destruct (unique_spec (soup_search_links E content) []) as (Hnd & Hsub & Hin).
  split; [rewrite length_firstn; lia|]. split; [|split; [|split]].
  - eapply subsequence_nodup; [apply subsequence_firstn | exact Hnd].
  - eapply subsequence_trans; [exact Hsub | apply subsequence_firstn].
  - intros ->. discriminate.
  - intros _. destruct (soup_search_links E content) as [|u links]; reflexivity.
Qed.

Lemma process_urls_loop_order (E : Env) (urls : list string) :
  forall acc fetched,
  exists new,
    fst (process_urls_loop E urls acc fetched) = (acc ++ new)%list /\
    subsequence (map url new) urls /\
    Forall (fun item => process_url E (url item) = Some item) new.
Proof.
  induction urls as [|u rest IH]; intros acc fetched; cbn [process_urls_loop].
  - exists []. rewrite app_nil_r. repeat split; constructor.
  - pose proof (subsequence_nil_l string) as Hskip.
    destruct (3 <=? List.length acc)%nat.
    { exists []. rewrite app_nil_r. repeat split; [apply Hskip | constructor]. }
    destruct (process_url E u) as [item|] eqn:Hu.
    + destruct (IH (acc ++ [item])%list (fetched ++ [u])%list) as (new & Heq & Hsub & Hall).
      exists (item :: new). rewrite <- app_assoc in Heq. cbn [app] in Heq.
      pose proof (process_url_some E u item Hu) as [Hurl _].
      split; [exact Heq|]. split.
      * cbn [map]. rewrite Hurl. now constructor.
      * constructor; [now rewrite Hurl | exact Hall].
    + destruct (IH acc (fetched ++ [u])%list) as (new & Heq & Hsub & Hall).
      exists new. split; [exact Heq|]. split; [now constructor | exact Hall].
Qed.

(** X10.  The entries of [process_urls] follow the order of the addresses
    given.  None of them is marked as full content or as HTML, and each
    carries the summary, not empty, of the text extracted from the page
    fetched at its address. *)
Theorem process_urls_in_order (E : Env) (urls : list string) (query : string) :
  subsequence (map url (process_urls E urls query)) urls /\
  has_full_content (process_urls E urls query) = false /\
  Forall (fun item =>
            summary item <> "" /\
            is_full_content item = false /\ has_html item = false /\
            exists page_content,
              get_webpage_content E (url item) = Some page_content /\
              summary item = summarize_text E (extract_text E page_content) 5)
         (process_urls E urls query).
Proof.
  unfold process_urls, process_urls_trace.
  destruct (process_urls_loop_order E urls [] []) as (new & -> & Hsub & Hall).
  cbn [app].
  assert (Hitems : Forall (fun item =>
            summary item <> "" /\
            is_full_content item = false /\ has_html item = false /\
            exists page_content,
              get_webpage_content E (url item) = Some page_content /\
              summary item = summarize_text E (extract_text E page_content) 5) new).
  { eapply Forall_impl; [|exact Hall]. intros item. unfold process_url.
    destruct (get_webpage_content E (url item)) as [page_content|]; [|discriminate].
    destruct (is_empty page_content); [discriminate|].
    destruct (is_empty (extract_text E page_content) || _); [discriminate|].
    destruct (is_empty (summarize_text E (extract_text E page_content) 5)) eqn:Hs;
      [discriminate|].
    intros [= <-]. cbn [summary is_full_content has_html].
    split; [intros Heq; rewrite Heq in Hs; discriminate|]. eauto. }
  split; [exact Hsub|]. split; [|exact Hitems].
  unfold has_full_content. clear -Hitems.
  induction Hitems as [|item l (_ & Hfull & _) _ IH]; [reflexivity|].
  cbn [existsb]. now rewrite Hfull.
Qed.

(** ** [create_summary] *)

Lemma summary_system_tokens : estimate_tokens summary_system_prompt = 46.
Proof. vm_compute. reflexivity. Qed.

Section Summary.
Variable E : Env.

Lemma summary_block_total (tps : Z) (idx : nat) (source : source_item) :
  0 <= tps -> exists b, summary_block E tps idx source = Ret b.
Proof.
  intros Htps. unfold summary_block.
  destruct (tps <? estimate_tokens (summary source)) eqn:Hlt.
  - apply Z.ltb_lt in Hlt.
    destruct (truncate_total (float_target E) (summary source) tps) as [r ->]; [lia|].
    cbn [bind]. eauto.
  - destruct (500 <? String.length (summary source))%nat; cbn [bind]; eauto.
Qed.

Lemma summary_blocks_total (tps : Z) (summaries : list source_item) :
  0 <= tps -> forall idx, exists s, summary_blocks E tps idx summaries = Ret s.
Proof.
  intros Htps. induction summaries as [|source rest IH]; intros idx;
    cbn [summary_blocks]; [eauto|].
  destruct (summary_block_total tps idx source Htps) as [b ->]. cbn [bind].
  destruct (IH (S idx)) as [s ->]. cbn [bind]. eauto.
Qed.

Lemma summary_allotment (summaries : list source_item) :
  0 <= SUMMARY_MAX_SOURCE_TOKENS / Z.of_nat (List.length summaries).
Proof. apply Z_div_nonneg_nonneg; unfold SUMMARY_MAX_SOURCE_TOKENS; lia. Qed.

Lemma final_token_check_total (system user_prompt : string) :
  estimate_tokens system + 1000 <= MAX_TOTAL_TOKENS ->
  exists user, final_token_check E system user_prompt = Ret user.
Proof.
  intros Hs. unfold final_token_check. cbv zeta.
  destruct (MAX_TOTAL_TOKENS <? _) eqn:Hover; [|eauto]. apply Z.ltb_lt in Hover.
  apply truncate_total. right. lia.
Qed.

Lemma summary_user_prompt_total (query : string) (summaries : list source_item) :
  exists user, summary_user_prompt E query summaries = Ret user.
Proof.
  unfold summary_user_prompt. cbv zeta.
  assert (Hbody : exists body,
    match summaries with
    | [] => Ret ("No sources are available for summarization." ++ nl ++ nl)
    | _ :: _ =>
        summary_blocks E (SUMMARY_MAX_SOURCE_TOKENS / Z.of_nat (List.length summaries)) 1 summaries
    end = Ret body).
  { destruct summaries as [|s0 rest]; [eauto|].
    apply summary_blocks_total. apply summary_allotment. }
  destruct Hbody as [body ->]. cbn [bind].
  apply final_token_check_total. rewrite summary_system_tokens. unfold MAX_TOTAL_TOKENS. lia.
Qed.

(** [create_summary] returns, and what it returns carries the query and
    the sources it was given. *)
Lemma create_summary_returns (site : call_site) (query : string)
  (summaries : list source_item) (model_info : model) :
  exists ok data,
    create_summary E site query summaries model_info = Ret (ok, data) /\
    r_query data = query /\ r_summaries data = summaries /\ r_isQuestion data = false.
Proof.
  unfold create_summary.
  destruct (summary_user_prompt_total query summaries) as [user ->]. cbn [bind].
  destruct (generate_llm_response _ _ _ _ _) as [[ok answer] t].
  destruct ok; eexists _, _; (split; [reflexivity|]); cbn; auto.
Qed.

(** X11.  [create_summary] never raises, whatever the sources, the model
    information and the arithmetic of the truncation: the allotment per
    source and the limit of the final check are not negative, so that the
    division of the truncation is never reached with a zero estimate.  The
    data returned carry the query and the sources as given, are not marked
    as a question, and on failure carry the fixed message. *)
Theorem create_summary_total (site : call_site) (query : string)
  (summaries : list source_item) (model_info : model) :
  exists ok data,
    create_summary E site query summaries model_info = Ret (ok, data) /\
    r_query data = query /\ r_summaries data = summaries /\ r_isQuestion data = false /\
    (ok = false -> r_consolidated_summary data = Some "Failed to generate summary.").
Proof.
  unfold create_summary.
  destruct (summary_user_prompt_total query summaries) as [user ->]. cbn [bind].
  destruct (generate_llm_response _ _ _ _ _) as [[ok answer] t].
  destruct ok; eexists _, _; (split; [reflexivity|]); cbn; repeat split; auto; discriminate.
Qed.

Hypothesis rounding : rounding_ok (float_target E).

Lemma final_token_check_within (system user_prompt : string) :
  estimate_tokens system + 1074 <= MAX_TOTAL_TOKENS ->
  exists user,
    final_token_check E system user_prompt = Ret user /\
    estimate_tokens system + estimate_tokens user <= MAX_TOTAL_TOKENS /\
    (estimate_tokens system + estimate_tokens user_prompt <= MAX_TOTAL_TOKENS ->
     user = user_prompt).
Proof.
  intros Hs. unfold final_token_check. cbv zeta.
  destruct (MAX_TOTAL_TOKENS <? _) eqn:Hover.
  - apply Z.ltb_lt in Hover.
    destruct (truncate_fits (float_target E) user_prompt
                (MAX_TOTAL_TOKENS - estimate_tokens system - 1000) rounding)
      as (r & Hr & Hfit & _); [lia|].
    exists r. split; [exact Hr|]. split; lia.
  - apply Z.ltb_ge in Hover. exists user_prompt. repeat split. exact Hover.
Qed.

(** X12.  The prompt of [create_summary], system part included, is
    estimated at most at the total ceiling of 180,000 tokens. *)
Theorem summary_prompt_within_budget (query : string) (summaries : list source_item) :
  exists user,
    summary_user_prompt E query summaries = Ret user /\
    estimate_tokens summary_system_prompt + estimate_tokens user <= MAX_TOTAL_TOKENS.
Proof.
  destruct (summary_user_prompt_total query summaries) as [user Huser].
  exists user. split; [exact Huser|].
  unfold summary_user_prompt in Huser. cbv zeta in Huser.
  destruct (match summaries with [] => _ | _ :: _ => _ end) as [body|]; [|discriminate].
  cbn [bind] in Huser.
  match type of Huser with
  | final_token_check _ _ ?prompt = _ =>
      destruct (final_token_check_within summary_system_prompt prompt) as (user' & Hu & Hle & _)
  end.
  { rewrite summary_system_tokens. unfold MAX_TOTAL_TOKENS. lia. }
  congruence.
Qed.

End Summary.

Lemma summary_prompt_within_budget_witness :
  exists user,
    summary_user_prompt demo_env "Summarize Pets"
      [page_summary_item demo_env "Summarize: Pets" pets_page] = Ret user /\
    estimate_tokens summary_system_prompt + estimate_tokens user <= MAX_TOTAL_TOKENS.
Proof.
  exact (summary_prompt_within_budget demo_env exact_rounding_ok "Summarize Pets"
           [page_summary_item demo_env "Summarize: Pets" pets_page]).
Defined.

(** ** Outcome of a summary, memory and sources of an answer *)

Section Outcome.
Variable E : Env.

(** X13.  With a key and a supported provider, [create_summary] returns
    what the provider does on the prompt: its answer with the elapsed time,
    or, when the provider raises, the failure message with the time elapsed
    up to the exception. *)
Theorem create_summary_outcome (site : call_site) (query : string)
  (summaries : list source_item) (model_info : model) :
  mi_api_key model_info <> "" ->
  mem_string (lower E (mi_provider model_info)) supported_providers = true ->
  exists user,
    summary_user_prompt E query summaries = Ret user /\
    create_summary E site query summaries model_info =
    Ret (match provider_call E site (lower E (mi_provider model_info))
                 (mi_api_key model_info) summary_system_prompt user with
         | Ret answer =>
             (true, {| r_query := query; r_summaries := summaries;
                       r_consolidated_summary := Some answer;
                       r_generation_time := elapsed E site; r_isQuestion := false |})
         | Raise _ =>
             (false, {| r_query := query; r_summaries := summaries;
                        r_consolidated_summary := Some "Failed to generate summary.";
                        r_generation_time := elapsed E site; r_isQuestion := false |})
         end).
Proof.
  intros Hkey Hprovider.
  destruct (summary_user_prompt_total E query summaries) as [user Huser].
  exists user. split; [exact Huser|].
  unfold create_summary. rewrite Huser. cbn [bind].
  unfold generate_llm_response.
  assert (is_empty (mi_api_key model_info) = false) as ->
    by (destruct (mi_api_key model_info); [contradiction | reflexivity]).
  rewrite Hprovider.
  destruct (provider_call E site _ _ _ _); reflexivity.
Qed.

Lemma filter_none (A : Type) (f : A -> bool) (l : list A) :
  (forall x, f x = false) -> filter f l = [].
Proof. intros H. induction l as [|x l IH]; cbn; [|rewrite H]; auto. Qed.

Lemma filter_all (A : Type) (f : A -> bool) (l : list A) :
  (forall x, f x = true) -> filter f l = l.
Proof. intros H. induction l as [|x l IH]; cbn; [|rewrite H, IH]; auto. Qed.

(** X14.  The block [MEMORY GROUPED BY SOURCE] is never written.  The first
    pass over the history copies the role and the content of an entry, not
    its source, so that no memory item has a domain when the groups are
    formed: every memory item is written as a previous question or answer,
    comparison question or not. *)
Theorem memory_never_grouped (is_comparison_question : bool)
  (conversation_history : list history_item) :
  domain_groups (memory_items E conversation_history) = [] /\
  memory_content E is_comparison_question conversation_history =
    "MEMORY CONTEXT (Information from previous conversations):" ++ nl
    ++ join "" (map memory_line (memory_items E conversation_history))
    ++ "---" ++ nl ++ nl
    ++ (if is_comparison_question && has_multiple_sources E conversation_history
        then comparison_instruction else "").
Proof.
  assert (Hnone : forall items, filter is_grouped items = [])
    by (intros items; apply filter_none; reflexivity).
  assert (Hall : forall items, ungrouped_memories items = items)
    by (intros items; apply filter_all; reflexivity).
  assert (Hgroups : forall items, domain_groups items = [])
    by (intros items; unfold domain_groups; now rewrite Hnone).
  split; [apply Hgroups|].
  unfold memory_content. cbv zeta. rewrite Hgroups, Hall. reflexivity.
Qed.

Hypothesis rounding : rounding_ok (float_target E).

(** X15.  The tokens counted for the memory section are at most the memory
    ceiling of 20,000; and when at least 74 tokens of the ceiling are left
    after the memory section, the tokens counted for memory and conversation
    together are at most the ceiling. *)
Theorem history_within_memory_pool (is_comparison_question : bool)
  (conversation_history : list history_item)
  (memory conversation : string) (memory_tokens conversation_tokens : Z) :
  memory_section E is_comparison_question conversation_history = Ret (memory, memory_tokens) ->
  conversation_section E memory conversation_history = Ret (conversation, conversation_tokens) ->
  0 <= memory_tokens <= MAX_MEMORY_TOKENS /\
  0 <= conversation_tokens /\
  (74 <= MAX_MEMORY_TOKENS - estimate_tokens memory ->
   memory_tokens + conversation_tokens <= MAX_MEMORY_TOKENS).
Proof.
  intros Hmem Hconv.
  assert (Hm : 0 <= memory_tokens <= MAX_MEMORY_TOKENS /\ memory_tokens <= estimate_tokens memory).
  { unfold memory_section in Hmem. cbv zeta in Hmem.
    set (note := if is_comparison_question && has_multiple_sources E conversation_history
                 then comparison_note E conversation_history else "") in *.
    destruct (memory_items E conversation_history).
    - injection Hmem as <- <-. pose proof (estimate_tokens_nonneg note).
      unfold MAX_MEMORY_TOKENS. lia.
    - destruct (MAX_MEMORY_TOKENS <? estimate_tokens _) eqn:Hover.
      + destruct (truncate_fits (float_target E)
                    (memory_content E is_comparison_question conversation_history)
                    MAX_MEMORY_TOKENS rounding) as (r & Hr & Hfit & _);
          [unfold MAX_MEMORY_TOKENS; lia|].
        rewrite Hr in Hmem. cbn [bind] in Hmem. injection Hmem as <- <-.
        pose proof (estimate_tokens_nonneg r). pose proof (estimate_tokens_nonneg note).
        pose proof (estimate_tokens_app_le note r). lia.
      + apply Z.ltb_ge in Hover. cbn [bind] in Hmem. injection Hmem as <- <-.
        pose proof (estimate_tokens_nonneg
                      (memory_content E is_comparison_question conversation_history)).
        pose proof (estimate_tokens_nonneg note).
        pose proof (estimate_tokens_app_le note
                      (memory_content E is_comparison_question conversation_history)). lia. }
  destruct Hm as [Hm Hle]. split; [exact Hm|].
  unfold conversation_section in Hconv.
  destruct (current_conversation E conversation_history) as [|t l].
  { injection Hconv as <- <-. split; lia. }
  cbv zeta in Hconv.
  set (conv := "RECENT CONVERSATION:" ++ _) in *.
  destruct (_ <? estimate_tokens conv) eqn:Hover.
  - destruct (truncate_content_by_tokens (float_target E) conv _) as [r|] eqn:Hr; [|discriminate].
    cbn [bind] in Hconv. injection Hconv as <- <-.
    split; [apply estimate_tokens_nonneg|]. intros Hroom.
    destruct (truncate_fits (float_target E) conv (MAX_MEMORY_TOKENS - estimate_tokens memory)
                rounding Hroom) as (r' & Hr' & Hfit & _).
    rewrite Hr in Hr'. injection Hr' as <-. lia.
  - apply Z.ltb_ge in Hover. cbn [bind] in Hconv. injection Hconv as <- <-.
    split; [apply estimate_tokens_nonneg|]. lia.
Qed.



End Outcome.

Lemma create_summary_outcome_witness :
  exists user,
    summary_user_prompt demo_env "Summarize Pets"
      [page_summary_item demo_env "Summarize: Pets" pets_page] = Ret user /\
    create_summary demo_env FinalSummary "Summarize Pets"
      [page_summary_item demo_env "Summarize: Pets" pets_page] demo_model =
    Ret (match provider_call demo_env FinalSummary (lower demo_env (mi_provider demo_model))
                 (mi_api_key demo_model) summary_system_prompt user with
         | Ret answer =>
             (true, {| r_query := "Summarize Pets";
                       r_summaries := [page_summary_item demo_env "Summarize: Pets" pets_page];
                       r_consolidated_summary := Some answer;
                       r_generation_time := elapsed demo_env FinalSummary;
                       r_isQuestion := false |})
         | Raise _ =>
             (false, {| r_query := "Summarize Pets";
                        r_summaries := [page_summary_item demo_env "Summarize: Pets" pets_page];
                        r_consolidated_summary := Some "Failed to generate summary.";
                        r_generation_time := elapsed demo_env FinalSummary;
                        r_isQuestion := false |})
         end).
Proof.
  apply (create_summary_outcome demo_env FinalSummary "Summarize Pets"
           [page_summary_item demo_env "Summarize: Pets" pets_page] demo_model).
  - discriminate.
  - reflexivity.
Defined.

Lemma history_within_memory_pool_witness :
  0 <= 33 <= MAX_MEMORY_TOKENS /\
  0 <= 10 /\
  (74 <= MAX_MEMORY_TOKENS - estimate_tokens demo_memory -> 33 + 10 <= MAX_MEMORY_TOKENS).
Proof.
  apply (history_within_memory_pool demo_env exact_rounding_ok false demo_history
           demo_memory demo_conversation 33 10).
  - vm_compute. reflexivity.
  - vm_compute. reflexivity.
Defined.


(** ** [process_query] *)

Section Requests.
Variable E : Env.

(** The end of [process_query] for a request that is not a question. *)
Lemma finish_query_summary (clean : string) (s : list source_item) (mi : option model)
  (hist : list history_item) :
  exists d,
    finish_query E clean false s mi hist = Ret (Success d) /\
    r_query d = clean /\ r_summaries d = s /\ r_isQuestion d = false.
Proof.
  unfold finish_query. destruct s as [|s0 s], mi as [m|];
    try (eexists; split; [reflexivity|]; cbn; auto).
  destruct (create_summary_returns E FinalSummary clean (s0 :: s) m)
    as (ok & data & -> & Hq & Hs & Hf).
  cbn [bind fst snd]. destruct ok; eexists; (split; [reflexivity|]); cbn; auto.
Qed.

Lemma process_query_summary (query : string) (urls : list string) (pc : option page)
  (mi : option model) (arg : option bool) (hist : list history_item) :
  query_is_question E query arg mi = false ->
  process_query E query urls pc mi arg hist =
  catch (finish_query E (clean_query E query) false
           (normal_summaries E query (clean_query E query) urls pc
              (context_summaries E false mi)) mi hist)
        (fun e => Failure e).
Proof.
  intros Hq. unfold process_query. cbv zeta. rewrite Hq. cbn [andb].
  destruct pc as [p|], mi as [m|]; cbn [bind]; try reflexivity.
  destruct (pc_htmlContent p); reflexivity.
Qed.

(** X20.  A request that is not a question always gets a response with
    [success = True]: no step of its path can raise.  The response carries
    the cleaned query, the flag [isQuestion = false] and the evidence of the
    normal path. *)
Theorem summary_request_never_fails (query : string) (urls : list string) (pc : option page)
  (mi : option model) (arg : option bool) (hist : list history_item) :
  query_is_question E query arg mi = false ->
  exists d,
    process_query E query urls pc mi arg hist = Success d /\
    r_query d = clean_query E query /\
    r_isQuestion d = false /\
    r_summaries d = normal_summaries E query (clean_query E query) urls pc
                      (context_summaries E false mi).
Proof.
  intros Hq. rewrite (process_query_summary query urls pc mi arg hist Hq).
  destruct (finish_query_summary (clean_query E query)
              (normal_summaries E query (clean_query E query) urls pc
                 (context_summaries E false mi)) mi hist) as (d & -> & Hquery & Hs & Hflag).
  exists d. cbn [catch]. auto.
Qed.

(** X21.  For a request that is not a question, a page of at most 200
    characters without additional contexts ends the request: the response
    is the default one, and neither the addresses given nor a search are
    used. *)
Theorem short_page_blocks_addresses (query : string) (urls : list string) (p : page)
  (mi : option model) (arg : option bool) (hist : list history_item) :
  query_is_question E query arg mi = false ->
  contexts_of mi = [] ->
  page_is_substantial p = false ->
  process_query E query urls (Some p) mi arg hist
  = Success (default_data (clean_query E query) false).
Proof.
  intros Hq Hctx Hshort. rewrite (process_query_summary query urls (Some p) mi arg hist Hq).
  assert (Hnone : context_summaries E false mi = []).
  { unfold context_summaries, contexts_of in *. destruct mi as [m|]; [|reflexivity].
    destruct (mi_additionalContexts m); [|reflexivity]. now subst. }
  rewrite Hnone. unfold normal_summaries. cbn [is_nil]. rewrite Hshort.
  unfold finish_query. destruct mi; reflexivity.
Qed.

(** X22.  Without model information [process_query] never fails and never
    asks a provider: the question flag depends on the query and the flag of
    the caller only, and the response carries the evidence of the normal
    path with no consolidated summary, or the default response when there is
    no evidence. *)
Theorem process_query_without_model (query : string) (urls : list string) (pc : option page)
  (arg : option bool) (hist : list history_item) :
  let clean := clean_query E query in
  let is_q := query_is_question E query arg None in
  let evidence := normal_summaries E query clean urls pc [] in
  is_q = (if is_url query then false
          else match arg with Some b => b | None => is_question E query end) /\
  process_query E query urls pc None arg hist =
  Success (if is_nil evidence then default_data clean is_q
           else {| r_query := clean; r_summaries := evidence;
                   r_consolidated_summary := None;
                   r_generation_time := 0; r_isQuestion := is_q |}).
Proof.
  cbv zeta. split; [reflexivity|].
  unfold process_query. cbv zeta.
  assert (Hfin : forall s,
    catch (finish_query E (clean_query E query) (query_is_question E query arg None) s None hist)
          (fun e => Failure e)
    = Success (if is_nil s then default_data (clean_query E query)
                                 (query_is_question E query arg None)
               else {| r_query := clean_query E query; r_summaries := s;
                       r_consolidated_summary := None;
                       r_generation_time := 0;
                       r_isQuestion := query_is_question E query arg None |}))
    by (intros [|s0 s]; reflexivity).
  destruct pc as [p|]; cbn [bind context_summaries]; apply Hfin.
Qed.

End Requests.

Lemma summary_request_never_fails_witness :
  exists d,
    process_query demo_env "Summarize: Pets" [] (Some pets_page) (Some demo_model)
      (Some false) [] = Success d /\
    r_query d = clean_query demo_env "Summarize: Pets" /\
    r_isQuestion d = false /\
    r_summaries d = normal_summaries demo_env "Summarize: Pets"
                      (clean_query demo_env "Summarize: Pets") [] (Some pets_page)
                      (context_summaries demo_env false (Some demo_model)).
Proof.
  apply (summary_request_never_fails demo_env "Summarize: Pets" [] (Some pets_page)
           (Some demo_model) (Some false) []).
  reflexivity.
Defined.

Lemma short_page_blocks_addresses_witness :
  process_query demo_env "Summarize: Pets" ["https://ok.example/1"] (Some short_page)
    (Some demo_model) (Some false) []
  = Success (default_data (clean_query demo_env "Summarize: Pets") false).
Proof.
  apply (short_page_blocks_addresses demo_env "Summarize: Pets" ["https://ok.example/1"]
           short_page (Some demo_model) (Some false) []); reflexivity.
Defined.

Section Flags.
Variable E : Env.

(** X17.  The question flag of [process_query] is set exactly when the
    query is not an address and one of three signals is: the flag of the
    caller, or the detection when the caller gives none; the flag of the
    model information; or an original query that is a question.  A caller
    that passes [False] is thus overruled by the model information. *)
Theorem query_is_question_iff (query : string) (arg : option bool) (mi : option model) :
  query_is_question E query arg mi = true <->
  is_url query = false /\
  (match arg with Some b => b | None => is_question E query end = true \/
   exists m, mi = Some m /\
             (mi_isQuestion m = Some true \/
              (mi_originalQuery m <> "" /\ is_question E (mi_originalQuery m) = true))).
Proof.
  unfold query_is_question. destruct (is_url query).
  { split; [discriminate | intros [? _]; discriminate]. }
  cbn [negb andb].
  destruct mi as [m|].
  - rewrite andb_true_r.
    destruct (is_empty (mi_originalQuery m)) eqn:Horig,
             (is_question E (mi_originalQuery m)) eqn:Hoq,
             (mi_isQuestion m) as [[|]|] eqn:Hflag,
             (match arg with Some b => b | None => is_question E query end) eqn:Hbase;
      cbn [negb andb orb];
      (split;
       [ intros Hyes;
         first [ discriminate Hyes
               | split; [reflexivity|];
                 first [ left; reflexivity
                       | right; exists m; split; [reflexivity|];
                         first [ left; assumption
                               | right; split; [|assumption];
                                 intros Heq; rewrite Heq in Horig; discriminate Horig ] ] ]
       | intros [_ [Hb | (m0 & Hm & [Hf | [Hne Hq]])]];
         first [ reflexivity
               | discriminate
               | injection Hm as <-;
                 first [ congruence | apply is_empty_eq in Horig; contradiction ] ] ]).
  - split.
    + intros ->. auto.
    + intros [_ [Hb | (m0 & Hm & _)]]; [exact Hb | discriminate].
Qed.

(** X18.  A question about links on a page that carries HTML, with a key,
    a supported provider and a provider that answers, is answered from the
    HTML alone: the response carries the answer and the elapsed time, and
    no evidence, whatever the contexts, the addresses and the history. *)
Theorem html_question_answered (query : string) (urls : list string) (p : page) (m : model)
  (arg : option bool) (hist : list history_item) (html answer : string) :
  query_is_question E query arg (Some m) = true ->
  mi_isAboutLinks m = Some true ->
  pc_htmlContent p = Some html ->
  mi_api_key m <> "" ->
  mem_string (lower E (mi_provider m)) supported_providers = true ->
  provider_call E HtmlAnalysis (lower E (mi_provider m)) (mi_api_key m) html_system_prompt
    (html_user_prompt (clean_query E query) p) = Ret answer ->
  process_query E query urls (Some p) (Some m) arg hist
  = Success {| r_query := clean_query E query; r_summaries := [];
               r_consolidated_summary := Some answer;
               r_generation_time := elapsed E HtmlAnalysis;
               r_isQuestion := true |}.
Proof.
  intros Hq Hlinks Hhtml Hkey Hprovider Hcall.
  unfold process_query. cbv zeta. rewrite Hq, Hlinks, Hhtml. cbn [andb].
  unfold generate_llm_response.
  rewrite (is_empty_false _ Hkey), Hprovider, Hcall. reflexivity.
Qed.

Lemma context_items_length (is_q : bool) (contexts : list context) :
  forall i, (List.length (context_items E is_q i contexts) <= List.length contexts)%nat.
Proof.
  induction contexts as [|ctx rest IH]; intros i; cbn [context_items List.length]; [lia|].
  specialize (IH (S i)). destruct (context_item E is_q i ctx); cbn [List.length]; lia.
Qed.

Lemma context_summaries_length (is_q : bool) (mi : option model) :
  (List.length (context_summaries E is_q mi) <= List.length (contexts_of mi))%nat.
Proof.
  unfold context_summaries, contexts_of. destruct mi as [m|]; [|cbn; lia].
  destruct (mi_additionalContexts m); [apply context_items_length | cbn; lia].
Qed.

Lemma process_urls_length (urls : list string) (query : string) :
  (List.length (process_urls E urls query) <= 3)%nat.
Proof.
  unfold process_urls, process_urls_trace.
  destruct (process_urls_loop_spec E urls [] []) as (new & fnew & rest & -> & _ & _ & Hcap & _).
  cbn [fst app] in *. apply Hcap. cbn. lia.
Qed.

Lemma normal_summaries_length (query clean : string) (urls : list string)
  (pc : option page) (s : list source_item) :
  (List.length (normal_summaries E query clean urls pc s) <= List.length s + 3)%nat.
Proof.
  unfold normal_summaries.
  assert (Hother :
    (List.length
       (if negb (is_nil urls) then (s ++ process_urls E urls clean)%list
        else if is_nil s
             then match get_google_search_results E clean with
                  | [] => s
                  | u :: l => (s ++ process_urls E (u :: l) clean)%list
                  end
             else s) <= List.length s + 3)%nat).
  { destruct (negb (is_nil urls)).
    - rewrite length_app. pose proof (process_urls_length urls clean). lia.
    - destruct (is_nil s); [|lia].
      destruct (get_google_search_results E clean) as [|u l]; [lia|].
      rewrite length_app. pose proof (process_urls_length (u :: l) clean). lia. }
  destruct pc as [p|]; [|exact Hother].
  destruct (is_nil s); [|exact Hother].
  destruct (page_is_substantial p); cbn [List.length]; lia.
Qed.

(** X23.  A response carries at most one entry per additional context and
    four entries more, the page and three fetched pages; at most three more
    when the request is not a question. *)
Theorem evidence_is_bounded (query : string) (urls : list string) (pc : option page)
  (mi : option model) (arg : option bool) (hist : list history_item) (d : result_data) :
  process_query E query urls pc mi arg hist = Success d ->
  (List.length (r_summaries d) <= List.length (contexts_of mi) + 4)%nat /\
  (query_is_question E query arg mi = false ->
   (List.length (r_summaries d) <= List.length (contexts_of mi) + 3)%nat).
Proof.
  intros Hrun. apply process_query_answered in Hrun.
  assert (Hdirect : forall p,
    (List.length (direct_summaries E query true p mi) <= List.length (contexts_of mi) + 1)%nat).
  { intros p. unfold direct_summaries. rewrite length_app.
    pose proof (context_summaries_length true mi).
    destruct (page_is_substantial p); cbn [List.length]; lia. }
  destruct Hrun as [p m _ _ Hyes Hs _ | p m _ _ Hyes Hqa | s Hfin Hs].
  - rewrite Hs. cbn [List.length]. split; [lia|]. intros; lia.
  - apply create_question_answer_data in Hqa as [-> _].
    specialize (Hdirect p). split; [lia|]. intros; lia.
  - apply finish_query_data in Hfin as [-> _].
    pose proof (normal_summaries_length query (clean_query E query) urls pc s) as Hn.
    destruct Hs as [[-> _] | (p & m & _ & _ & Hyes & -> & _)].
    + pose proof (context_summaries_length (query_is_question E query arg mi) mi).
      split; [lia|]. intros; lia.
    + specialize (Hdirect p). split; [lia|]. intros Hno. congruence.
Qed.

End Flags.

Lemma html_question_answered_witness :
  process_query demo_env "Which links are on this page?" ["https://ok.example/1"]
    (Some html_page) (Some links_model) None []
  = Success {| r_query := clean_query demo_env "Which links are on this page?";
               r_summaries := [];
               r_consolidated_summary := Some "An answer.";
               r_generation_time := elapsed demo_env HtmlAnalysis;
               r_isQuestion := true |}.
Proof.
  apply (html_question_answered demo_env "Which links are on this page?"
           ["https://ok.example/1"] html_page links_model None []
           "<a href='https://pets.example/cats'>Cats [LINK: https://pets.example/cats]</a>"
           "An answer.").
  - reflexivity.
  - reflexivity.
  - reflexivity.
  - discriminate.
  - reflexivity.
  - reflexivity.
Defined.

Lemma evidence_is_bounded_witness :
  (List.length (r_summaries pets_answer) <= List.length (contexts_of (Some model_with_notes)) + 4)%nat /\
  (query_is_question demo_env "Which animals chase mice?" None (Some model_with_notes) = false ->
   (List.length (r_summaries pets_answer)
    <= List.length (contexts_of (Some model_with_notes)) + 3)%nat).
Proof.
  apply (evidence_is_bounded demo_env "Which animals chase mice?" [] (Some pets_page)
           (Some model_with_notes) None [] pets_answer).
  vm_compute. reflexivity.
Defined.

Lemma html_prompt_fixed_length :
  len (html_user_prompt "" {| pc_htmlContent := None; pc_content := "";
                              pc_title := Some ""; pc_url := Some "" |}) = 500.
Proof. vm_compute. reflexivity. Qed.

(** X19.  The length of the HTML analysis prompt: 500 characters of fixed
    text, the cleaned query, the title, the address, and the HTML, of which
    at most 50,000 characters are kept, followed by a marker of 20
    characters when it was cut. *)
Theorem html_prompt_capped (clean : string) (page_content : page) :
  len (html_user_prompt clean page_content)
  = len clean + len (or_default (pc_title page_content) "Untitled")
    + len (or_default (pc_url page_content) "")
    + Z.min (len (or_default (pc_htmlContent page_content) "")) 50000
    + (if 50000 <? len (or_default (pc_htmlContent page_content) "") then 20 else 0)
    + 500.
Proof.
  unfold html_user_prompt. cbv zeta.
  set (html := or_default (pc_htmlContent page_content) "").
  assert (Hhtml : len (if 50000 <? len html
                       then take (Z.to_nat 50000) html ++ "... [HTML truncated]" else html)
                  = Z.min (len html) 50000 + (if 50000 <? len html then 20 else 0)).
  { destruct (50000 <? len html) eqn:Hbig.
    - apply Z.ltb_lt in Hbig. rewrite len_append. unfold len in *. rewrite length_take.
      change (Z.of_nat (String.length "... [HTML truncated]")) with 20. lia.
    - apply Z.ltb_ge in Hbig. lia. }
  rewrite !len_append, Hhtml.
  change (len "WEBPAGE ANALYSIS QUESTION: ") with 27.
  change (len nl) with 1.
  change (len "Page title: ") with 12.
  change (len "URL: ") with 5.
  change (len "HTML CONTENT:") with 13.
  replace (len html_final_instruction) with 333 by (vm_compute; reflexivity).
  match goal with
  | |- context [len ?s] =>
      match s with
      | String _ _ => replace (len s) with 100 by (vm_compute; reflexivity)
      end
  end.
  lia.
Qed.

(** ** [main] *)

Section Main.
Variable E : Env.


(** X25.  The action [summarize] with content and a key always succeeds.
    The response is not marked as a question, and its evidence is the
    summary of the content when the content has more than 200 characters,
    and empty otherwise. *)
Theorem main_summarize (rq : request) :
  lookup_key (selected_provider rq) (rq_browser_api_keys rq) <> "" ->
  rq_action rq = Some "summarize" ->
  rq_content rq <> "" ->
  let query := "Summarize: " ++ or_default (rq_title rq) "Untitled" in
  exists d,
    main_reply E rq = Reply (Success d) /\
    r_query d = clean_query E query /\
    r_isQuestion d = false /\
    r_summaries d = if (200 <? String.length (rq_content rq))%nat
                    then [page_summary_item E query (content_page rq)] else [].
Proof.
  intros Hkey Haction Hcontent. cbv zeta.
  unfold main_reply. cbv zeta.
  rewrite (is_empty_false _ Hkey), Haction. cbn [or_default].
  change ("summarize" =? "process_page")%string with false.
  change ("summarize" =? "answer_question")%string with false.
  change ("summarize" =? "summarize")%string with true. cbv iota.
  rewrite (is_empty_false _ Hcontent).
  set (query := "Summarize: " ++ or_default (rq_title rq) "Untitled").
  assert (Hq : query_is_question E query (Some false) (Some (main_model rq false [])) = false)
    by reflexivity.
  rewrite (process_query_summary E query [] (Some (content_page rq))
             (Some (main_model rq false [])) (Some false) [] Hq).
  destruct (finish_query_summary E (clean_query E query)
              (normal_summaries E query (clean_query E query) [] (Some (content_page rq))
                 (context_summaries E false (Some (main_model rq false []))))
              (Some (main_model rq false [])) []) as (d & -> & Hquery & Hs & Hflag).
  exists d. cbn [catch]. split; [reflexivity|]. split; [exact Hquery|]. split; [exact Hflag|].
  rewrite Hs. cbn [context_summaries main_model mi_additionalContexts is_nil].
  unfold normal_summaries. cbn [is_nil].
  unfold page_is_substantial, page_body, page_has_html, content_page.
  cbn [pc_htmlContent or_default is_empty negb pc_content].
  rewrite (is_empty_false _ Hcontent). reflexivity.
Qed.


End Main.

Lemma main_summarize_witness :
  exists d,
    main_reply demo_env summarize_request = Reply (Success d) /\
    r_query d = clean_query demo_env ("Summarize: " ++ or_default (rq_title summarize_request) "Untitled") /\
    r_isQuestion d = false /\
    r_summaries d =
      if (200 <? String.length (rq_content summarize_request))%nat
      then [page_summary_item demo_env
              ("Summarize: " ++ or_default (rq_title summarize_request) "Untitled")
              (content_page summarize_request)]
      else [].
Proof.
  apply (main_summarize demo_env summarize_request).
  - discriminate.
  - reflexivity.
  - discriminate.
Defined.

